(** * Capture / inference orchestration of the in-browser transcriber

    A shallow embedding of [src/App.jsx] (the control context: React state,
    the worker-message handler, the recorder callbacks and the Realtime
    window) and of the worker scripts (the inference context: the
    [processing] gate of [generate], [load] and the lazily built engine
    handle), followed by the properties of the specification that can be
    stated over them. *)

From Stdlib Require Import List ZArith NArith Bool Lia String Ascii QArith.
From Stdlib Require Strings.Byte DecimalPos.
Import ListNotations.
Close Scope Q_scope.
Open Scope list_scope.

(** ** JavaScript strings *)

(** A JavaScript string is a sequence of UTF-16 code units. *)
Definition jsstring := list N.

(** An ASCII literal as a JavaScript string. *)
Definition js (s : string) : jsstring := map N_of_ascii (list_ascii_of_string s).

Module JsString.

(** [WhiteSpace] and [LineTerminator] code points of ECMAScript, the
    characters [String.prototype.trim] strips. *)
Definition is_whitespace (c : N) : bool :=
  existsb (N.eqb c)
    [ 9; 10; 11; 12; 13; 32; 160; 5760;
      8192; 8193; 8194; 8195; 8196; 8197; 8198; 8199; 8200; 8201; 8202;
      8232; 8233; 8239; 8287; 12288; 65279 ]%N.

Fixpoint trimStart (s : jsstring) : jsstring :=
  match s with
  | [] => []
  | c :: s' => if is_whitespace c then trimStart s' else s
  end.

Definition trimEnd (s : jsstring) : jsstring := rev (trimStart (rev s)).

(** [s.trim()] *)
Definition trim (s : jsstring) : jsstring := trimEnd (trimStart s).

(** [s.startsWith(p)] *)
Fixpoint startsWith (p s : jsstring) : bool :=
  match p, s with
  | [], _ => true
  | _ :: _, [] => false
  | a :: p', b :: s' => N.eqb a b && startsWith p' s'
  end.

(** The scan of [s.replace(/pat/g, '')] for a literal, non-empty [pat]:
    matches are looked for from left to right; a match is dropped and the
    scan resumes behind it ([skip] counts the code units of the current
    match still to be dropped); any other code unit is kept. *)
Fixpoint remove_scan (pat : jsstring) (skip : nat) (s : jsstring) : jsstring :=
  match s with
  | [] => []
  | c :: s' =>
      match skip with
      | S k => remove_scan pat k s'
      | O =>
          if startsWith pat s
          then remove_scan pat (pred (List.length pat)) s'
          else c :: remove_scan pat 0 s'
      end
  end.

(** [s.replace(/pat/g, '')]; the empty pattern matches everywhere and
    removes nothing. *)
Definition removeAll (pat s : jsstring) : jsstring :=
  match pat with
  | [] => s
  | _ :: _ => remove_scan pat 0 s
  end.

(** JavaScript truthiness of a string: non-empty. *)
Definition truthy (s : jsstring) : bool :=
  match s with [] => false | _ :: _ => true end.

End JsString.

(** The non-speech placeholder of the model, the literal of the regular
    expression [/\[BLANK_AUDIO\]/g]. *)
Definition BLANK_AUDIO : jsstring := js "[BLANK_AUDIO]".

(** [output.replace(/\[BLANK_AUDIO\]/g, '').trim()] *)
Definition cleanedOutput (output : jsstring) : jsstring :=
  JsString.trim (JsString.removeAll BLANK_AUDIO output).

(** ** The wire protocol between the two contexts *)

(** An element of the [Float32Array] of a request, as its IEEE-754 binary32
    bit pattern. No arithmetic is done on samples here: they are only
    copied. *)
Definition sample := Z.

(** A raw capture fragment ([Blob]) of the recorder. *)
Definition blob := list Byte.byte.

(** The [data] of a [generate] command: [{ audio, language, isFinal }]. *)
Record request := {
  audio : list sample;
  language : jsstring;
  isFinal : bool
}.

(** Messages of the control context to the worker, by [type]. *)
Inductive command :=
| Cmd_load
| Cmd_generate (data : request).

(** The object of a progress message, which is also an entry of the
    load-progress display: its properties besides [status], each one
    present or not. The [status] of a stored entry is not kept: nothing
    reads it. *)
Record progress_item := {
  name : option jsstring;
  file : option jsstring;
  progress : option Q;
  loaded : option Q;
  total : option Q
}.

(** [{ ...item, ...data }]: the properties of [data], and those of [item]
    that [data] does not have. *)
Definition spread (item data : progress_item) : progress_item :=
  let pick {A : Type} (old new : option A) : option A :=
    match new with Some _ => new | None => old end in
  {| name := pick (name item) (name data);
     file := pick (file item) (file data);
     progress := pick (progress item) (progress data);
     loaded := pick (loaded item) (loaded data);
     total := pick (total item) (total data) |}.

(** Messages of the worker to the control context, by [status]. *)
Inductive message :=
| Msg_loading (data : jsstring)
| Msg_initiate (item : progress_item)
| Msg_progress (item : progress_item)
| Msg_done (file : option jsstring)
| Msg_ready
| Msg_start
| Msg_update (output : jsstring) (tps : option Q) (numTokens : nat)
| Msg_complete (output : jsstring) (isFinal : bool)
| Msg_error (data : jsstring).

(** ** The control context: [App.jsx] *)

Definition WHISPER_SAMPLING_RATE : Z := 16000.
Definition MAX_AUDIO_LENGTH : Z := 30.
Definition MAX_SAMPLES : Z := WHISPER_SAMPLING_RATE * MAX_AUDIO_LENGTH.

(** [%TypedArray%.prototype.slice(start)], without an end: a negative
    [start] counts from the end of the array, and the index is clamped to
    the array. *)
Definition slice {A : Type} (start : Z) (l : list A) : list A :=
  let len := Z.of_nat (List.length l) in
  let k := if (start <? 0)%Z then Z.max (len + start) 0 else Z.min start len in
  skipn (Z.to_nat k) l.

(** The window a Realtime request carries, from the first channel of the
    decoded recording ([fileReader.onloadend] of the Realtime effect). *)
Definition realtime_window (decoded : list sample) : list sample :=
  if (Z.of_nat (List.length decoded) >? MAX_SAMPLES)%Z
  then slice (- MAX_SAMPLES) decoded
  else decoded.

Module App.

(** [status]: [null], ["loading"] or ["ready"]. *)
Inductive status_t := loading | ready.

(** The React state of the component and [fullRecordingRef.current].
    The clock-driven pieces ([recordingStartTime], [elapsedTime],
    [debouncedTps]) are left out: no handler below reads them. *)
Record state := {
  status : option status_t;
  loadingMessage : jsstring;
  progressItems : list progress_item;
  realtimeText : jsstring;
  finalTranscript : jsstring;
  tps : option Q;
  recording : bool;
  isProcessing : bool;
  chunks : list blob;
  fullRecording : list blob;
  allowRealtimeProcessing : bool;
  processingFinalTranscript : bool
}.

Definition initial : state := {|
  status := None;
  loadingMessage := [];
  progressItems := [];
  realtimeText := [];
  finalTranscript := [];
  tps := None;
  recording := false;
  isProcessing := false;
  chunks := [];
  fullRecording := [];
  allowRealtimeProcessing := true;
  processingFinalTranscript := false
|}.

(** What a callback asks of the browser besides updating the state. *)
Inductive effect :=
| RequestData
| RequestDataIfRecording (delay_ms : nat)
| FocusTextarea
| ReadFinalRecording (blobs : list blob)
| ReadRealtimeChunks (blobs : list blob)
| PostMessage (c : command).

Definition setStatus v s := {|
  status := v; loadingMessage := loadingMessage s;
  progressItems := progressItems s; realtimeText := realtimeText s;
  finalTranscript := finalTranscript s; tps := tps s;
  recording := recording s; isProcessing := isProcessing s;
  chunks := chunks s; fullRecording := fullRecording s;
  allowRealtimeProcessing := allowRealtimeProcessing s;
  processingFinalTranscript := processingFinalTranscript s |}.

Definition setLoadingMessage v s := {|
  status := status s; loadingMessage := v;
  progressItems := progressItems s; realtimeText := realtimeText s;
  finalTranscript := finalTranscript s; tps := tps s;
  recording := recording s; isProcessing := isProcessing s;
  chunks := chunks s; fullRecording := fullRecording s;
  allowRealtimeProcessing := allowRealtimeProcessing s;
  processingFinalTranscript := processingFinalTranscript s |}.

Definition setProgressItems v s := {|
  status := status s; loadingMessage := loadingMessage s;
  progressItems := v; realtimeText := realtimeText s;
  finalTranscript := finalTranscript s; tps := tps s;
  recording := recording s; isProcessing := isProcessing s;
  chunks := chunks s; fullRecording := fullRecording s;
  allowRealtimeProcessing := allowRealtimeProcessing s;
  processingFinalTranscript := processingFinalTranscript s |}.

Definition setRealtimeText v s := {|
  status := status s; loadingMessage := loadingMessage s;
  progressItems := progressItems s; realtimeText := v;
  finalTranscript := finalTranscript s; tps := tps s;
  recording := recording s; isProcessing := isProcessing s;
  chunks := chunks s; fullRecording := fullRecording s;
  allowRealtimeProcessing := allowRealtimeProcessing s;
  processingFinalTranscript := processingFinalTranscript s |}.

Definition setFinalTranscript v s := {|
  status := status s; loadingMessage := loadingMessage s;
  progressItems := progressItems s; realtimeText := realtimeText s;
  finalTranscript := v; tps := tps s;
  recording := recording s; isProcessing := isProcessing s;
  chunks := chunks s; fullRecording := fullRecording s;
  allowRealtimeProcessing := allowRealtimeProcessing s;
  processingFinalTranscript := processingFinalTranscript s |}.

Definition setTps v s := {|
  status := status s; loadingMessage := loadingMessage s;
  progressItems := progressItems s; realtimeText := realtimeText s;
  finalTranscript := finalTranscript s; tps := v;
  recording := recording s; isProcessing := isProcessing s;
  chunks := chunks s; fullRecording := fullRecording s;
  allowRealtimeProcessing := allowRealtimeProcessing s;
  processingFinalTranscript := processingFinalTranscript s |}.

Definition setRecording v s := {|
  status := status s; loadingMessage := loadingMessage s;
  progressItems := progressItems s; realtimeText := realtimeText s;
  finalTranscript := finalTranscript s; tps := tps s;
  recording := v; isProcessing := isProcessing s;
  chunks := chunks s; fullRecording := fullRecording s;
  allowRealtimeProcessing := allowRealtimeProcessing s;
  processingFinalTranscript := processingFinalTranscript s |}.

Definition setIsProcessing v s := {|
  status := status s; loadingMessage := loadingMessage s;
  progressItems := progressItems s; realtimeText := realtimeText s;
  finalTranscript := finalTranscript s; tps := tps s;
  recording := recording s; isProcessing := v;
  chunks := chunks s; fullRecording := fullRecording s;
  allowRealtimeProcessing := allowRealtimeProcessing s;
  processingFinalTranscript := processingFinalTranscript s |}.

Definition setChunks v s := {|
  status := status s; loadingMessage := loadingMessage s;
  progressItems := progressItems s; realtimeText := realtimeText s;
  finalTranscript := finalTranscript s; tps := tps s;
  recording := recording s; isProcessing := isProcessing s;
  chunks := v; fullRecording := fullRecording s;
  allowRealtimeProcessing := allowRealtimeProcessing s;
  processingFinalTranscript := processingFinalTranscript s |}.

Definition setFullRecording v s := {|
  status := status s; loadingMessage := loadingMessage s;
  progressItems := progressItems s; realtimeText := realtimeText s;
  finalTranscript := finalTranscript s; tps := tps s;
  recording := recording s; isProcessing := isProcessing s;
  chunks := chunks s; fullRecording := v;
  allowRealtimeProcessing := allowRealtimeProcessing s;
  processingFinalTranscript := processingFinalTranscript s |}.

Definition setAllowRealtimeProcessing v s := {|
  status := status s; loadingMessage := loadingMessage s;
  progressItems := progressItems s; realtimeText := realtimeText s;
  finalTranscript := finalTranscript s; tps := tps s;
  recording := recording s; isProcessing := isProcessing s;
  chunks := chunks s; fullRecording := fullRecording s;
  allowRealtimeProcessing := v;
  processingFinalTranscript := processingFinalTranscript s |}.

Definition setProcessingFinalTranscript v s := {|
  status := status s; loadingMessage := loadingMessage s;
  progressItems := progressItems s; realtimeText := realtimeText s;
  finalTranscript := finalTranscript s; tps := tps s;
  recording := recording s; isProcessing := isProcessing s;
  chunks := chunks s; fullRecording := fullRecording s;
  allowRealtimeProcessing := allowRealtimeProcessing s;
  processingFinalTranscript := v |}.

(** [a === b] for the [file] of two objects: a string, or [undefined]
    when the property is missing. *)
Definition same_file (a b : option jsstring) : bool :=
  match a, b with
  | Some x, Some y => if list_eq_dec N.eq_dec x y then true else false
  | None, None => true
  | _, _ => false
  end.

(** The listener of worker messages: one case per [e.data.status]; a
    status without a case leaves the state as it is. *)
Definition onMessageReceived (e : message) (s : state) : state * list effect :=
  match e with
  | Msg_loading data =>
      (setLoadingMessage data (setStatus (Some loading) s), [])
  | Msg_initiate item =>
      (setProgressItems (progressItems s ++ [item]) s, [])
  | Msg_progress data =>
      (setProgressItems
         (map (fun item =>
                 if same_file (file item) (file data) then spread item data else item)
              (progressItems s)) s, [])
  | Msg_done f =>
      (setProgressItems
         (filter (fun item => negb (same_file (file item) f)) (progressItems s)) s, [])
  | Msg_ready =>
      (setStatus (Some ready) s, [])
  | Msg_start =>
      (setIsProcessing true s, [RequestDataIfRecording 0])
  | Msg_update _ tps' _ =>
      (setTps tps' s, [])
  | Msg_complete output final =>
      let s := setIsProcessing false s in
      if final then
        let s := setProcessingFinalTranscript false s in
        let cleaned := cleanedOutput output in
        if JsString.truthy cleaned then
          let prev := finalTranscript s in
          let s := setFinalTranscript
                     (prev ++ (if JsString.truthy prev then js " " else js "") ++ cleaned) s in
          (setRealtimeText (js "") s, [FocusTextarea])
        else
          (setRealtimeText (js "") s, [])
      else
        (setRealtimeText (cleanedOutput output) s, [])
  | Msg_error _ =>
      (s, [])
  end.

(** [recorderRef.current.onstart] *)
Definition onstart (s : state) : state * list effect :=
  let s := setRecording true s in
  let s := setAllowRealtimeProcessing true s in
  let s := setChunks [] s in
  let s := setFullRecording [] s in
  let s := setRealtimeText (js "") s in
  (s, [RequestDataIfRecording 100]).

(** [recorderRef.current.ondataavailable] *)
Definition ondataavailable (data : blob) (s : state) : state * list effect :=
  if (0 <? List.length data)%nat then
    let s := setChunks (chunks s ++ [data]) s in
    (setFullRecording (fullRecording s ++ [data]) s, [])
  else
    (s, [RequestDataIfRecording 25]).

(** [recorderRef.current.onstop] *)
Definition onstop (s : state) : state * list effect :=
  let s := setRecording false s in
  let s := setAllowRealtimeProcessing false s in
  let s := setRealtimeText (js "") s in
  if (0 <? List.length (fullRecording s))%nat then
    (setProcessingFinalTranscript true s, [ReadFinalRecording (fullRecording s)])
  else
    (s, []).

(** [fileReader.onloadend] of [onstop]: the decode either yields the
    first channel or throws. *)
Definition final_onloadend (decoded : option (list sample)) (s : state)
  : state * list effect :=
  match decoded with
  | Some audio' =>
      (s, [PostMessage (Cmd_generate
             {| audio := audio'; language := js "en"; isFinal := true |})])
  | None => (setProcessingFinalTranscript false s, [])
  end.

(** The Realtime effect, re-run when [status], [recording],
    [isProcessing], [chunks] or [allowRealtimeProcessing] change. *)
Definition realtime_effect (s : state) : list effect :=
  if negb (recording s) then []
  else if negb (allowRealtimeProcessing s) then []
  else if isProcessing s then []
  else match status s with
       | Some ready =>
           if (0 <? List.length (chunks s))%nat
           then [ReadRealtimeChunks (chunks s)]
           else [RequestData]
       | _ => []
       end.

(** [fileReader.onloadend] of the Realtime effect. *)
Definition realtime_onloadend (decoded : list sample) : list effect :=
  [PostMessage (Cmd_generate
     {| audio := realtime_window decoded; language := js "en"; isFinal := false |})].

(** The "Load Model" button, rendered while [status] is [null]. *)
Definition load_click (s : state) : state * list effect :=
  (setStatus (Some loading) s, [PostMessage Cmd_load]).

(** [clearTranscript] and the textarea's [onChange]. *)
Definition clearTranscript (s : state) : state := setFinalTranscript (js "") s.
Definition onChange (value : jsstring) (s : state) : state := setFinalTranscript value s.

(** Delivering a batch of worker messages in order. *)
Definition deliver (msgs : list message) (s : state) : state :=
  fold_left (fun s e => fst (onMessageReceived e s)) msgs s.

End App.

(** ** The inference context: the worker scripts

    JavaScript runs one job at a time to completion, so an [async] function
    is a coroutine that only gives up control at its [await]s. A worker is
    modelled by the values of its module-level variables, the list of its
    suspended [async] calls (each one with the place it is suspended at),
    and the calls it has made to the engine; an [action] is one job of the
    event loop. *)

(** Where an [async] call of the worker is suspended. The consecutive
    awaits of one inference (feature extraction and generation) are one
    place, [gen_running]: no statement between them reads or writes
    [processing] or posts a message. *)
Inductive pc :=
| gen_waiting (r : request)   (* generate: in [while (processing)], awaiting the 50 ms timeout *)
| gen_instance (r : request)  (* generate: past [processing = true], awaiting [getInstance()] *)
| gen_running (r : request)   (* generate: past [processing = true], awaiting the inference *)
| load_instance               (* load: awaiting [getInstance(progress_callback)] *)
| load_warmup                 (* load: awaiting the warm-up run *)
| finished.                   (* returned, or ended by an uncaught exception *)

(** One job of the worker's event loop. A task is named by its position in
    the list of tasks, which only grows. *)
Inductive action :=
| Receive (c : command)                          (* the "message" listener *)
| Timer (i : nat)                                (* the timeout awaited by task [i] fires *)
| Resolved (i : nat) (output : jsstring)         (* the promise awaited by task [i] resolves *)
| Rejected (i : nat) (error_message : jsstring)  (* ... or rejects *)
| Streamed (i : nat) (output : jsstring) (tps : option Q) (numTokens : nat)
                                                 (* the streaming callback of task [i] runs *)
| Callback (i : nat) (x : message).              (* the progress callback of task [i] runs *)

(** The calls a worker makes to the engine. *)
Inductive engine_call :=
| tokenizer_from_pretrained
| processor_from_pretrained
| model_from_pretrained
| pipeline_call
| inference (r : request)
| warmup.

(** The requests whose inference is in flight: admitted, not finished. *)
Definition running_request (t : pc) : list request :=
  match t with
  | gen_instance r | gen_running r => [r]
  | _ => []
  end.

(** [l] with its [i]-th element replaced; nothing out of range. *)
Fixpoint update {A : Type} (i : nat) (x : A) (l : list A) : list A :=
  match l, i with
  | [], _ => []
  | _ :: l', O => x :: l'
  | y :: l', S i' => y :: update i' x l'
  end.

(** [`Failed to load model: ${error.message}`] *)
Definition load_error (error_message : jsstring) : jsstring :=
  js "Failed to load model: " ++ error_message.

(** *** [src/worker.js]: tokenizer, processor and model, with a [TextStreamer] *)
Module Worker.

Record state := {
  tokenizer : bool;   (* the static field holds a promise (is not [null]) *)
  processor : bool;
  model : bool;
  processing : bool;
  tasks : list pc;
  calls : list engine_call
}.

Definition initial : state := {|
  tokenizer := false; processor := false; model := false;
  processing := false; tasks := []; calls := []
|}.

Definition set_processing v s := {|
  tokenizer := tokenizer s; processor := processor s; model := model s;
  processing := v; tasks := tasks s; calls := calls s |}.

Definition set_tasks v s := {|
  tokenizer := tokenizer s; processor := processor s; model := model s;
  processing := processing s; tasks := v; calls := calls s |}.

Definition call c s := {|
  tokenizer := tokenizer s; processor := processor s; model := model s;
  processing := processing s; tasks := tasks s; calls := calls s ++ [c] |}.

(** [AutomaticSpeechRecognitionPipeline.getInstance], up to its
    [return]: each [??=] stores the promise of a load it starts only if
    the field is still [null]. *)
Definition getInstance (s : state) : state :=
  let s := if tokenizer s then s else
    call tokenizer_from_pretrained
      {| tokenizer := true; processor := processor s; model := model s;
         processing := processing s; tasks := tasks s; calls := calls s |} in
  let s := if processor s then s else
    call processor_from_pretrained
      {| tokenizer := tokenizer s; processor := true; model := model s;
         processing := processing s; tasks := tasks s; calls := calls s |} in
  let s := if model s then s else
    call model_from_pretrained
      {| tokenizer := tokenizer s; processor := processor s; model := true;
         processing := processing s; tasks := tasks s; calls := calls s |} in
  s.

(** [generate], from [processing = true] to [await getInstance()]. *)
Definition begin_generation (r : request) (s : state) : state * pc * list message :=
  let s := set_processing true s in
  let s := getInstance s in
  (s, gen_instance r, [Msg_start]).

(** [generate], from the call to its first [await] (or its [return]). *)
Definition generate (r : request) (s : state) : state * list message :=
  if processing s && negb (isFinal r) then (s, [])
  else if processing s && isFinal r then
    (set_tasks (tasks s ++ [gen_waiting r]) s, [])
  else
    let '(s, t, out) := begin_generation r s in
    (set_tasks (tasks s ++ [t]) s, out).

(** [load], from the call to its first [await]. *)
Definition load (s : state) : state * list message :=
  let s := getInstance s in
  (set_tasks (tasks s ++ [load_instance]) s, [Msg_loading (js "Loading model...")]).

(** What task [i], suspended at [t], does when the event loop resumes it
    with [a], up to its next [await]. There is no [try] around the body
    of [generate]: a rejected engine call ends the task there. *)
Definition resume (i : nat) (t : pc) (a : action) (s : state) : state * list message :=
  match t, a with
  | gen_waiting r, Timer _ =>
      if processing s then (s, [])
      else let '(s, t', out) := begin_generation r s in (set_tasks (update i t' (tasks s)) s, out)
  | gen_instance r, Resolved _ _ =>
      let s := call (inference r) s in
      (set_tasks (update i (gen_running r) (tasks s)) s, [])
  | gen_running r, Streamed _ output tps numTokens =>
      (s, [Msg_update output tps numTokens])
  | gen_running r, Resolved _ output =>
      let s := set_tasks (update i finished (tasks s)) s in
      (set_processing false s, [Msg_complete output (isFinal r)])
  | gen_instance r, Rejected _ _ | gen_running r, Rejected _ _ =>
      (set_tasks (update i finished (tasks s)) s, [])
  | load_instance, Callback _ x => (s, [x])
  | load_instance, Resolved _ _ =>
      let s := call warmup s in
      (set_tasks (update i load_warmup (tasks s)) s,
       [Msg_loading (js "Compiling shaders and warming up model...")])
  | load_warmup, Resolved _ _ =>
      (set_tasks (update i finished (tasks s)) s, [Msg_ready])
  | load_instance, Rejected _ e | load_warmup, Rejected _ e =>
      (set_tasks (update i finished (tasks s)) s, [Msg_error (load_error e)])
  | _, _ => (s, [])
  end.

(** One job of the event loop; a job for a task that is not there does
    nothing. *)
Definition step (a : action) (s : state) : state * list message :=
  match a with
  | Receive Cmd_load => load s
  | Receive (Cmd_generate r) => generate r s
  | Timer i | Resolved i _ | Rejected i _ | Streamed i _ _ _ | Callback i _ =>
      match nth_error (tasks s) i with
      | Some t => resume i t a s
      | None => (s, [])
      end
  end.

(** A sequence of jobs, with the messages posted, in order. *)
Fixpoint run (jobs : list action) (s : state) : state * list message :=
  match jobs with
  | [] => (s, [])
  | a :: jobs' =>
      let (s1, out1) := step a s in
      let (s2, out2) := run jobs' s1 in
      (s2, out1 ++ out2)
  end.

Definition in_flight (s : state) : list request :=
  flat_map running_request (tasks s).

Definition waiting (s : state) (i : nat) (r : request) : Prop :=
  nth_error (tasks s) i = Some (gen_waiting r).

Definition admitted (s : state) (i : nat) (r : request) : Prop :=
  nth_error (tasks s) i = Some (gen_instance r) \/
  nth_error (tasks s) i = Some (gen_running r).

(** At most one request is in flight, and none while the flag is clear. *)
Definition invariant (s : state) : Prop :=
  (List.length (in_flight s) <= 1)%nat /\
  (processing s = false -> in_flight s = []).

End Worker.

(** *** The pipeline variant of the worker: one [transcriber], inference in a [try] *)
Module PipelineWorker.

Record state := {
  transcriber : bool;   (* the static field holds the pipeline (is not [null]) *)
  processing : bool;
  tasks : list pc;
  calls : list engine_call
}.

Definition initial : state := {|
  transcriber := false; processing := false; tasks := []; calls := []
|}.

Definition set_transcriber v s := {|
  transcriber := v; processing := processing s;
  tasks := tasks s; calls := calls s |}.

Definition set_processing v s := {|
  transcriber := transcriber s; processing := v;
  tasks := tasks s; calls := calls s |}.

Definition set_tasks v s := {|
  transcriber := transcriber s; processing := processing s;
  tasks := v; calls := calls s |}.

Definition call c s := {|
  transcriber := transcriber s; processing := processing s;
  tasks := tasks s; calls := calls s ++ [c] |}.

(** [AutomaticSpeechRecognitionPipelineInstance.getInstance], up to its
    [await]: the field is tested now and assigned only once the awaited
    [pipeline(...)] has resolved. [true] when the caller has to wait. *)
Definition getInstance (s : state) : state * bool :=
  if transcriber s then (s, false) else (call pipeline_call s, true).

(** [generate], from [processing = true] to its first suspension. *)
Definition begin_generation (r : request) (s : state) : state * pc * list message :=
  let s := set_processing true s in
  let (s, wait) := getInstance s in
  if wait then (s, gen_instance r, [Msg_start])
  else (call (inference r) s, gen_running r, [Msg_start]).

Definition generate (r : request) (s : state) : state * list message :=
  if processing s && negb (isFinal r) then (s, [])
  else if processing s && isFinal r then
    (set_tasks (tasks s ++ [gen_waiting r]) s, [])
  else
    let '(s, t, out) := begin_generation r s in
    (set_tasks (tasks s ++ [t]) s, out).

Definition compiling : message :=
  Msg_loading (js "Compiling shaders and warming up model...").

Definition load (s : state) : state * list message :=
  let (s, wait) := getInstance s in
  if wait then
    (set_tasks (tasks s ++ [load_instance]) s, [Msg_loading (js "Loading model...")])
  else
    let s := call warmup s in
    (set_tasks (tasks s ++ [load_warmup]) s,
     [Msg_loading (js "Loading model..."); compiling]).

(** The inference runs inside [try]: its rejection is caught, reported
    as a completion with an empty text, and falls through to
    [processing = false]. [await getInstance()] is before the [try]. *)
Definition resume (i : nat) (t : pc) (a : action) (s : state) : state * list message :=
  match t, a with
  | gen_waiting r, Timer _ =>
      if processing s then (s, [])
      else let '(s, t', out) := begin_generation r s in (set_tasks (update i t' (tasks s)) s, out)
  | gen_instance r, Resolved _ _ =>
      let s := set_transcriber true s in
      let s := call (inference r) s in
      (set_tasks (update i (gen_running r) (tasks s)) s, [])
  | gen_instance r, Rejected _ _ =>
      (set_tasks (update i finished (tasks s)) s, [])
  | gen_running r, Streamed _ output tps numTokens =>
      if isFinal r then (s, []) else (s, [Msg_update output tps numTokens])
  | gen_running r, Resolved _ output =>
      let s := set_tasks (update i finished (tasks s)) s in
      (set_processing false s, [Msg_complete output (isFinal r)])
  | gen_running r, Rejected _ _ =>
      let s := set_tasks (update i finished (tasks s)) s in
      (set_processing false s, [Msg_complete (js "") (isFinal r)])
  | load_instance, Callback _ x => (s, [x])
  | load_instance, Resolved _ _ =>
      let s := set_transcriber true s in
      let s := call warmup s in
      (set_tasks (update i load_warmup (tasks s)) s, [compiling])
  | load_warmup, Resolved _ _ =>
      (set_tasks (update i finished (tasks s)) s, [Msg_ready])
  | load_instance, Rejected _ e | load_warmup, Rejected _ e =>
      (set_tasks (update i finished (tasks s)) s, [Msg_error (load_error e)])
  | _, _ => (s, [])
  end.

Definition step (a : action) (s : state) : state * list message :=
  match a with
  | Receive Cmd_load => load s
  | Receive (Cmd_generate r) => generate r s
  | Timer i | Resolved i _ | Rejected i _ | Streamed i _ _ _ | Callback i _ =>
      match nth_error (tasks s) i with
      | Some t => resume i t a s
      | None => (s, [])
      end
  end.

Fixpoint run (jobs : list action) (s : state) : state * list message :=
  match jobs with
  | [] => (s, [])
  | a :: jobs' =>
      let (s1, out1) := step a s in
      let (s2, out2) := run jobs' s1 in
      (s2, out1 ++ out2)
  end.

Definition in_flight (s : state) : list request :=
  flat_map running_request (tasks s).

End PipelineWorker.

(** The number of loads of the model a worker has started. *)
Definition model_loads (calls : list engine_call) : nat :=
  List.length (filter (fun c => match c with
                                | model_from_pretrained | pipeline_call => true
                                | _ => false
                                end) calls).

(** ** The rest of the control context *)

(** Some suffix of [s] starts with [pat]: the pattern occurs in [s]. *)
Fixpoint occurs (pat s : jsstring) : bool :=
  match s with
  | [] => false
  | _ :: s' => JsString.startsWith pat s || occurs pat s'
  end.

Module JsNumber.

(** The decimal digits of [Number.prototype.toString] for an integer, as
    code units. *)
Fixpoint digits (u : Decimal.uint) : jsstring :=
  match u with
  | Decimal.Nil => []
  | Decimal.D0 u => 48%N :: digits u
  | Decimal.D1 u => 49%N :: digits u
  | Decimal.D2 u => 50%N :: digits u
  | Decimal.D3 u => 51%N :: digits u
  | Decimal.D4 u => 52%N :: digits u
  | Decimal.D5 u => 53%N :: digits u
  | Decimal.D6 u => 54%N :: digits u
  | Decimal.D7 u => 55%N :: digits u
  | Decimal.D8 u => 56%N :: digits u
  | Decimal.D9 u => 57%N :: digits u
  end.

(** [n.toString()] for an integer [n]. *)
Definition toString (n : Z) : jsstring :=
  match Z.to_int n with
  | Decimal.Pos u => digits u
  | Decimal.Neg u => 45%N :: digits u
  end.

(** [s.padStart(targetLength, padString)] *)
Definition padStart (targetLength : nat) (padString s : jsstring) : jsstring :=
  if (targetLength <=? List.length s)%nat then s
  else match padString with
       | [] => s
       | _ :: _ =>
           let fillLen := (targetLength - List.length s)%nat in
           firstn fillLen (List.concat (repeat padString fillLen)) ++ s
       end.

(** Reading a string of decimal digits back. *)
Fixpoint read_digits (s : jsstring) : option Decimal.uint :=
  match s with
  | [] => Some Decimal.Nil
  | c :: s' =>
      match read_digits s' with
      | None => None
      | Some u =>
          match c with
          | 48%N => Some (Decimal.D0 u)
          | 49%N => Some (Decimal.D1 u)
          | 50%N => Some (Decimal.D2 u)
          | 51%N => Some (Decimal.D3 u)
          | 52%N => Some (Decimal.D4 u)
          | 53%N => Some (Decimal.D5 u)
          | 54%N => Some (Decimal.D6 u)
          | 55%N => Some (Decimal.D7 u)
          | 56%N => Some (Decimal.D8 u)
          | 57%N => Some (Decimal.D9 u)
          | _ => None
          end
      end
  end.

Definition read_nat (s : jsstring) : option Z :=
  option_map Z.of_uint (read_digits s).

End JsNumber.

(** [Number.MAX_SAFE_INTEGER]: up to it, in absolute value, a double holds
    every integer. *)
Definition MAX_SAFE_INTEGER : Z := 2 ^ 53 - 1.

(** [formatElapsedTime], on the integers a double holds exactly ([seconds]
    is [elapsedTime], a [Math.floor] of a time difference): there
    [Math.floor(seconds / 60)] is the integer quotient rounded down,
    [seconds % 60] the remainder with the sign of the dividend, and both
    print in plain decimal. The result is the minutes, a colon, and the
    seconds padded to two places. Beyond these integers the arithmetic of
    doubles is not that of the integers and the function is not modelled:
    [None]. *)
Definition formatElapsedTime (seconds : Z) : option jsstring :=
  if (Z.abs seconds <=? MAX_SAFE_INTEGER)%Z then
    let mins := (seconds / 60)%Z in
    let secs := Z.rem seconds 60 in
    Some (JsNumber.toString mins ++ js ":"
            ++ JsNumber.padStart 2 (js "0") (JsNumber.toString secs))
  else None.

Module Session.

(** What the control context reacts to. *)
Inductive event :=
| Worker_message (e : message)                      (* [onMessageReceived] *)
| Recorder_start                                    (* [onstart] *)
| Recorder_data (data : blob)                       (* [ondataavailable] *)
| Recorder_stop                                     (* [onstop] *)
| Final_decoded (decoded : option (list sample))    (* [fileReader.onloadend] of [onstop] *)
| Load_click
| Clear_click                                       (* [clearTranscript] *)
| Edit (value : jsstring)                           (* the textarea's [onChange] *)
| Realtime_decoded (decoded : list sample).         (* [fileReader.onloadend] of the Realtime effect *)

Definition handle (ev : event) (s : App.state) : App.state * list App.effect :=
  match ev with
  | Worker_message e => App.onMessageReceived e s
  | Recorder_start => App.onstart s
  | Recorder_data data => App.ondataavailable data s
  | Recorder_stop => App.onstop s
  | Final_decoded decoded => App.final_onloadend decoded s
  | Load_click => App.load_click s
  | Clear_click => (App.clearTranscript s, [])
  | Edit value => (App.onChange value s, [])
  | Realtime_decoded decoded => (s, App.realtime_onloadend decoded)
  end.

(** The state after a sequence of events. *)
Definition after (evs : list event) (s : App.state) : App.state :=
  fold_left (fun s ev => fst (handle ev s)) evs s.

Definition is_start (ev : event) : bool :=
  match ev with Recorder_start => true | _ => false end.

Definition is_completion (ev : event) : bool :=
  match ev with Worker_message (Msg_complete _ _) => true | _ => false end.

(** [e.data.size > 0] *)
Definition has_data (data : blob) : bool := (0 <? List.length data)%nat.

(** The two ways the user rewrites the transcript. *)
Definition is_edit (ev : event) : bool :=
  match ev with Clear_click | Edit _ => true | _ => false end.

End Session.

(** ** The rest of the inference context *)

(** A progress report of the engine, what a progress callback posts:
    [initiate], [progress], [done], [ready] (and [download], a status
    the control context has no case for). *)
Definition progress_report (x : message) : bool :=
  match x with
  | Msg_initiate _ | Msg_progress _ | Msg_done _ | Msg_ready => true
  | _ => false
  end.

(** A job whose callback, if it is one, posts a progress report. *)
Definition engine_job (a : action) : bool :=
  match a with
  | Callback _ x => progress_report x
  | _ => true
  end.

Definition is_tokenizer_load (c : engine_call) : bool :=
  match c with tokenizer_from_pretrained => true | _ => false end.

Definition is_processor_load (c : engine_call) : bool :=
  match c with processor_from_pretrained => true | _ => false end.

Definition is_model_load (c : engine_call) : bool :=
  match c with model_from_pretrained => true | _ => false end.

Definition count_calls (p : engine_call -> bool) (calls : list engine_call) : nat :=
  List.length (filter p calls).

(** The loads of [src/worker.js] match its three fields: one load
    started for a field that holds a promise, none for a field that is
    [null]. *)
Definition loads_match (s : Worker.state) : Prop :=
  count_calls is_tokenizer_load (Worker.calls s) = (if Worker.tokenizer s then 1 else 0)%nat /\
  count_calls is_processor_load (Worker.calls s) = (if Worker.processor s then 1 else 0)%nat /\
  count_calls is_model_load (Worker.calls s) = (if Worker.model s then 1 else 0)%nat.

(** The gate of the pipeline variant: at most one request in flight, and
    none while the flag is clear. *)
Definition pipeline_invariant (s : PipelineWorker.state) : Prop :=
  (List.length (PipelineWorker.in_flight s) <= 1)%nat /\
  (PipelineWorker.processing s = false -> PipelineWorker.in_flight s = []).

(** *** The model table of the worker with model selection *)
Module ModelTable.

Definition base_id : jsstring := js "onnx-community/whisper-base-ONNX".
Definition medium_id : jsstring := js "onnx-community/whisper-medium-ONNX".

(** The own properties of [modelMap]. *)
Definition modelMap : list (jsstring * jsstring) :=
  [ (js "base", base_id); (js "medium", medium_id) ].

(** The property names [modelMap] inherits from [Object.prototype]; the
    value of each is a function or an object, not a string. *)
Definition inherited_names : list jsstring :=
  [ js "constructor"; js "hasOwnProperty"; js "isPrototypeOf";
    js "propertyIsEnumerable"; js "toLocaleString"; js "toString";
    js "valueOf"; js "__proto__";
    js "__defineGetter__"; js "__defineSetter__";
    js "__lookupGetter__"; js "__lookupSetter__" ].

Definition same_name (a b : jsstring) : bool :=
  if list_eq_dec N.eq_dec a b then true else false.

(** What [getModelId] returns. *)
Inductive model_id :=
| Id (name : jsstring)          (* a string of [modelMap] *)
| Inherited (name : jsstring).  (* the inherited property of that name *)

Fixpoint own (key : jsstring) (m : list (jsstring * jsstring)) : option jsstring :=
  match m with
  | [] => None
  | (k, v) :: m' => if same_name k key then Some v else own key m'
  end.

(** [modelMap[modelType] || modelMap['base']]: an own property first, an
    inherited one next (both truthy), the base model otherwise. *)
Definition getModelId (modelType : jsstring) : model_id :=
  match own modelType modelMap with
  | Some v => Id v
  | None =>
      if existsb (same_name modelType) inherited_names
      then Inherited modelType
      else Id base_id
  end.

End ModelTable.

(** *** The worker with model and language selection

    The third worker script: a [Map] from model type to pipeline, a
    current model and a current language, set by two more commands. *)
Module DynamicWorker.

Inductive command :=
| Load
| Generate (data : request)
| SetModel (model : jsstring)
| SetLanguage (language : jsstring).

Inductive pc :=
| gen_waiting (r : request)
| gen_instance (r : request) (modelType : jsstring)  (* awaiting [getInstance(currentModel)] *)
| gen_running (r : request)
| load_instance (modelType : jsstring)
| load_warmup
| set_model_instance (modelType : jsstring)          (* the listener, awaiting [getInstance(data.model)] *)
| finished.

Inductive action :=
| Receive (c : command)
| Timer (i : nat)
| Resolved (i : nat) (output : jsstring)
| Rejected (i : nat) (error_message : jsstring)
| Streamed (i : nat) (output : jsstring) (tps : option Q) (numTokens : nat)
| Callback (i : nat) (x : message).

(** The calls to the engine: [pipeline(task, model_id, ...)], the
    transcriber of a model type on an audio with [options.language], and
    the warm-up run. *)
Inductive engine_call :=
| pipeline_call (modelType : jsstring) (id : ModelTable.model_id)
| transcribe (modelType : jsstring) (audio : list sample) (language : jsstring) (final : bool)
| warmup (modelType : jsstring).

Record state := {
  transcribers : list jsstring;   (* the keys of the [Map] *)
  currentModel : jsstring;
  currentLanguage : jsstring;
  processing : bool;
  tasks : list pc;
  calls : list engine_call
}.

Definition initial : state := {|
  transcribers := []; currentModel := js "base"; currentLanguage := js "en";
  processing := false; tasks := []; calls := []
|}.

Definition set_transcribers v s := {|
  transcribers := v; currentModel := currentModel s;
  currentLanguage := currentLanguage s; processing := processing s;
  tasks := tasks s; calls := calls s |}.

Definition setCurrentModel v s := {|
  transcribers := transcribers s; currentModel := v;
  currentLanguage := currentLanguage s; processing := processing s;
  tasks := tasks s; calls := calls s |}.

Definition setCurrentLanguage v s := {|
  transcribers := transcribers s; currentModel := currentModel s;
  currentLanguage := v; processing := processing s;
  tasks := tasks s; calls := calls s |}.

Definition set_processing v s := {|
  transcribers := transcribers s; currentModel := currentModel s;
  currentLanguage := currentLanguage s; processing := v;
  tasks := tasks s; calls := calls s |}.

Definition set_tasks v s := {|
  transcribers := transcribers s; currentModel := currentModel s;
  currentLanguage := currentLanguage s; processing := processing s;
  tasks := v; calls := calls s |}.

Definition call c s := {|
  transcribers := transcribers s; currentModel := currentModel s;
  currentLanguage := currentLanguage s; processing := processing s;
  tasks := tasks s; calls := calls s ++ [c] |}.

(** [this.transcribers.has(modelType)] *)
Definition has (modelType : jsstring) (s : state) : bool :=
  existsb (ModelTable.same_name modelType) (transcribers s).

(** [this.transcribers.set(modelType, ...)], on the keys. *)
Definition set (modelType : jsstring) (s : state) : state :=
  if has modelType s then s
  else set_transcribers (transcribers s ++ [modelType]) s.

(** [getInstance(modelType, progress_callback)], up to its [await]: the
    [Map] is tested now and written only once the awaited [pipeline(...)]
    has resolved. [true] when the caller has to wait. *)
Definition getInstance (modelType : jsstring) (s : state) : state * bool :=
  if has modelType s then (s, false)
  else (call (pipeline_call modelType (ModelTable.getModelId modelType)) s, true).

(** [generate] inside its [try]: the language is the current one, read
    here; the [language] of the request is not read. *)
Definition start_inference (r : request) (modelType : jsstring) (s : state) : state :=
  call (transcribe modelType (audio r) (currentLanguage s) (isFinal r)) s.

(** [generate], from [processing = true] to its first suspension. *)
Definition begin_generation (r : request) (s : state) : state * pc * list message :=
  let s := set_processing true s in
  let modelType := currentModel s in
  let (s, wait) := getInstance modelType s in
  if wait then (s, gen_instance r modelType, [Msg_start])
  else (start_inference r modelType s, gen_running r, [Msg_start]).

Definition generate (r : request) (s : state) : state * list message :=
  if processing s && negb (isFinal r) then (s, [])
  else if processing s && isFinal r then
    (set_tasks (tasks s ++ [gen_waiting r]) s, [])
  else
    let '(s, t, out) := begin_generation r s in
    (set_tasks (tasks s ++ [t]) s, out).

Definition compiling : message :=
  Msg_loading (js "Compiling shaders and warming up model...").

Definition load (s : state) : state * list message :=
  let modelType := currentModel s in
  let (s, wait) := getInstance modelType s in
  if wait then
    (set_tasks (tasks s ++ [load_instance modelType]) s,
     [Msg_loading (js "Loading model...")])
  else
    let s := call (warmup modelType) s in
    (set_tasks (tasks s ++ [load_warmup]) s,
     [Msg_loading (js "Loading model..."); compiling]).

(** The [setModel] case of the listener. *)
Definition setModel (modelType : jsstring) (s : state) : state * list message :=
  let s := setCurrentModel modelType s in
  if has modelType s then (s, [])
  else
    let (s, _) := getInstance modelType s in
    (set_tasks (tasks s ++ [set_model_instance modelType]) s,
     [Msg_loading (js "Loading " ++ modelType ++ js " model...")]).

Definition resume (i : nat) (t : pc) (a : action) (s : state) : state * list message :=
  match t, a with
  | gen_waiting r, Timer _ =>
      if processing s then (s, [])
      else let '(s, t', out) := begin_generation r s in (set_tasks (update i t' (tasks s)) s, out)
  | gen_instance r modelType, Resolved _ _ =>
      let s := set modelType s in
      let s := start_inference r modelType s in
      (set_tasks (update i (gen_running r) (tasks s)) s, [])
  | gen_instance r _, Rejected _ _ =>
      (set_tasks (update i finished (tasks s)) s, [])
  | gen_running r, Streamed _ output tps numTokens =>
      if isFinal r then (s, []) else (s, [Msg_update output tps numTokens])
  | gen_running r, Resolved _ output =>
      let s := set_tasks (update i finished (tasks s)) s in
      (set_processing false s, [Msg_complete output (isFinal r)])
  | gen_running r, Rejected _ _ =>
      let s := set_tasks (update i finished (tasks s)) s in
      (set_processing false s, [Msg_complete (js "") (isFinal r)])
  | load_instance _, Callback _ x => (s, [x])
  | load_instance modelType, Resolved _ _ =>
      let s := set modelType s in
      let s := call (warmup modelType) s in
      (set_tasks (update i load_warmup (tasks s)) s, [compiling])
  | load_warmup, Resolved _ _ =>
      (set_tasks (update i finished (tasks s)) s, [Msg_ready])
  | load_instance _, Rejected _ e | load_warmup, Rejected _ e =>
      (set_tasks (update i finished (tasks s)) s, [Msg_error (load_error e)])
  | set_model_instance _, Callback _ x => (s, [x])
  | set_model_instance modelType, Resolved _ _ =>
      let s := set modelType s in
      (set_tasks (update i finished (tasks s)) s, [Msg_ready])
  | set_model_instance _, Rejected _ _ =>
      (set_tasks (update i finished (tasks s)) s, [])
  | _, _ => (s, [])
  end.

Definition step (a : action) (s : state) : state * list message :=
  match a with
  | Receive Load => load s
  | Receive (Generate r) => generate r s
  | Receive (SetModel modelType) => setModel modelType s
  | Receive (SetLanguage l) => (setCurrentLanguage l s, [])
  | Timer i | Resolved i _ | Rejected i _ | Streamed i _ _ _ | Callback i _ =>
      match nth_error (tasks s) i with
      | Some t => resume i t a s
      | None => (s, [])
      end
  end.

Fixpoint run (jobs : list action) (s : state) : state * list message :=
  match jobs with
  | [] => (s, [])
  | a :: jobs' =>
      let (s1, out1) := step a s in
      let (s2, out2) := run jobs' s1 in
      (s2, out1 ++ out2)
  end.

(** The model types and languages a state holds, in its settings, its
    suspended calls and the calls it has made. *)
Definition task_models (t : pc) : list jsstring :=
  match t with
  | gen_instance _ m | load_instance m | set_model_instance m => [m]
  | _ => []
  end.

Definition call_model (c : engine_call) : jsstring :=
  match c with
  | pipeline_call m _ | transcribe m _ _ _ | warmup m => m
  end.

Definition call_languages (c : engine_call) : list jsstring :=
  match c with
  | transcribe _ _ l _ => [l]
  | _ => []
  end.

(** Every model type of [s] satisfies [PM], every language [PL]. *)
Definition selected (PM PL : jsstring -> Prop) (s : state) : Prop :=
  PM (currentModel s) /\ PL (currentLanguage s) /\
  Forall PM (flat_map task_models (tasks s)) /\
  Forall PM (map call_model (calls s)) /\
  Forall PL (flat_map call_languages (calls s)).

End DynamicWorker.

(** ** States and traces the statements are run on *)

(** A state in the middle of a recording: the model is ready and one
    fragment has been captured. *)
Definition recording_state : App.state :=
  fst (App.ondataavailable [Byte.x52; Byte.x49; Byte.x46; Byte.x46]
         (fst (App.onstart (App.setStatus (Some App.ready) App.initial)))).

(** The last completion among a batch of worker messages. *)
Fixpoint last_complete (msgs : list message) : option (jsstring * bool) :=
  match msgs with
  | [] => None
  | e :: msgs' =>
      match last_complete msgs' with
      | Some c => Some c
      | None => match e with
                | Msg_complete output final => Some (output, final)
                | _ => None
                end
      end
  end.

(** Two requests and a trace to run the statements on: a Realtime request
    is admitted and its inference has started when the Final request of
    the same recording arrives. *)
Definition realtime_request : request :=
  {| audio := [0; 1065353216]%Z; language := js "en"; isFinal := false |}.

Definition final_request : request :=
  {| audio := [0; 1065353216; 0]%Z; language := js "en"; isFinal := true |}.

Definition final_behind_realtime : list action :=
  [ Receive (Cmd_generate realtime_request);
    Resolved 0 (js "");
    Receive (Cmd_generate final_request) ].

(** A request that asks for French. *)
Definition french_request : request :=
  {| audio := [0; 1065353216]%Z; language := js "fr"; isFinal := false |}.

(** A decode one sample longer than the window: sample [k] is [k]. *)
Definition long_decode : list sample :=
  map Z.of_nat (seq 0 (Z.to_nat (MAX_SAMPLES + 1))).

(** * Properties *)

(** ** Cleaning a transcript *)
Section Cleaning.

Import JsString.

Lemma startsWith_app (p s : jsstring) : startsWith p (p ++ s) = true.
Proof.
  induction p as [|a p IH]; simpl; [reflexivity|].
  now rewrite N.eqb_refl, IH.
Qed.

Lemma remove_scan_skip (pat l s : jsstring) :
  remove_scan pat (List.length l) (l ++ s) = remove_scan pat 0 s.
Proof.
  induction l as [|c l IH]; simpl; [reflexivity | exact IH].
Qed.

(** A match at the head of the text is dropped, and the scan goes on
    behind it. *)
Lemma removeAll_match (pat s : jsstring) :
  removeAll pat (pat ++ s) = removeAll pat s.
Proof.
  destruct pat as [|a p]; [reflexivity|].
  unfold removeAll.
  change ((a :: p) ++ s) with (a :: (p ++ s)).
  cbn [remove_scan].
  change (a :: (p ++ s)) with ((a :: p) ++ s).
  rewrite startsWith_app. cbn [List.length pred].
  apply remove_scan_skip.
Qed.

(** A code unit no match starts at is kept. *)
Lemma removeAll_keep (pat : jsstring) (c : N) (s : jsstring) :
  startsWith pat (c :: s) = false ->
  removeAll pat (c :: s) = c :: removeAll pat s.
Proof.
  destruct pat as [|a p]; [discriminate|].
  intros H. unfold removeAll. cbn [remove_scan]. now rewrite H.
Qed.

Lemma removeAll_nil (pat : jsstring) : removeAll pat [] = [].
Proof. now destruct pat. Qed.

Lemma trimStart_split (s : jsstring) :
  exists l, s = l ++ trimStart s /\ forallb is_whitespace l = true.
Proof.
  induction s as [|c s [l [Hs Hl]]]; simpl.
  - now exists [].
  - destruct (is_whitespace c) eqn:Hc.
    + exists (c :: l). simpl. rewrite Hc, Hl. split; [now f_equal | reflexivity].
    + now exists [].
Qed.

Lemma trimStart_head (s : jsstring) (c : N) (s' : jsstring) :
  trimStart s = c :: s' -> is_whitespace c = false.
Proof.
  induction s as [|d s IH]; simpl; [discriminate|].
  destruct (is_whitespace d) eqn:Hd; [exact IH|].
  intros H. now injection H as -> _.
Qed.

Lemma trimStart_fixed (c : N) (s : jsstring) :
  is_whitespace c = false -> trimStart (c :: s) = c :: s.
Proof. intros H. simpl. now rewrite H. Qed.

(** [trim] takes a run of white space off each end and nothing else. *)
Lemma trim_split (s : jsstring) :
  exists l r, s = l ++ trim s ++ r /\
              forallb is_whitespace l = true /\ forallb is_whitespace r = true.
Proof.
  destruct (trimStart_split s) as [l [Hs Hl]].
  destruct (trimStart_split (rev (trimStart s))) as [r [Hr Hrw]].
  exists l, (rev r). repeat split; [|exact Hl|].
  - unfold trim, trimEnd. rewrite <- rev_app_distr, <- Hr, rev_involutive. exact Hs.
  - rewrite forallb_forall in *. intros x Hx. apply Hrw. now apply in_rev.
Qed.

(** What [trim] leaves neither starts nor ends with white space. *)
Lemma trim_ends (s : jsstring) :
  (forall c s', trim s = c :: s' -> is_whitespace c = false) /\
  (forall c s', trim s = s' ++ [c] -> is_whitespace c = false).
Proof.
  split; intros c s' H.
  - unfold trim, trimEnd in H.
    destruct (trimStart (rev (trimStart s))) as [|d u] eqn:Hu; [discriminate|].
    pose proof (trimStart_head _ _ _ Hu) as Hd.
    (* the text that is left has the first code unit of [trimStart s] *)
    destruct (trimStart_split (rev (trimStart s))) as [l [Hl _]].
    rewrite Hu in Hl.
    assert (Hrev : trimStart s = rev u ++ d :: rev l).
    { rewrite <- (rev_involutive (trimStart s)), Hl, rev_app_distr. simpl.
      now rewrite <- app_assoc. }
    simpl in H.
    destruct (rev u) as [|e v] eqn:Hv.
    + simpl in H. injection H as <- _. exact Hd.
    + simpl in H. injection H as <- _.
      simpl in Hrev. eapply trimStart_head. exact Hrev.
  - unfold trim, trimEnd in H.
    apply (f_equal (@rev N)) in H. rewrite rev_involutive, rev_app_distr in H.
    simpl in H. eapply trimStart_head. exact H.
Qed.

Lemma truthy_nonempty (s : jsstring) : truthy s = true <-> s <> [].
Proof. destruct s; simpl; split; congruence. Qed.

End Cleaning.

(** The examples of the specification. *)
Example cleanedOutput_blank_hello_world :
  cleanedOutput (js "  [BLANK_AUDIO] hello world  ") = js "hello world".
Proof. reflexivity. Qed.

Example cleanedOutput_only_blank :
  cleanedOutput (js " [BLANK_AUDIO][BLANK_AUDIO] ") = js "".
Proof. reflexivity. Qed.

(** ** The worker-message handler of the control context *)

Lemma realtimeText_onMessageReceived (e : message) (s : App.state) :
  App.realtimeText (fst (App.onMessageReceived e s)) =
    match e with
    | Msg_complete output final => if final then [] else cleanedOutput output
    | _ => App.realtimeText s
    end.
Proof.
  destruct e as [| | | | | | | output final |]; try reflexivity.
  unfold App.onMessageReceived.
  destruct final; [|reflexivity].
  now destruct (JsString.truthy (cleanedOutput output)).
Qed.

Lemma finalTranscript_realtime_complete (t : jsstring) (s : App.state) :
  App.finalTranscript (fst (App.onMessageReceived (Msg_complete t false) s)) =
  App.finalTranscript s.
Proof. reflexivity. Qed.

Lemma realtimeText_deliver (msgs : list message) (s : App.state) :
  App.realtimeText (App.deliver msgs s) =
    match last_complete msgs with
    | Some (output, final) => if final then [] else cleanedOutput output
    | None => App.realtimeText s
    end.
Proof.
  revert s. induction msgs as [|e msgs IH]; intros s; [reflexivity|].
  unfold App.deliver in *. cbn [fold_left last_complete].
  rewrite IH. destruct (last_complete msgs) as [[o f]|]; [reflexivity|].
  rewrite realtimeText_onMessageReceived.
  now destruct e.
Qed.

Lemma finalTranscript_final_complete (t : jsstring) (s : App.state) :
  App.finalTranscript (fst (App.onMessageReceived (Msg_complete t true) s)) =
    match cleanedOutput t, App.finalTranscript s with
    | [], c => c
    | (_ :: _) as t', [] => t'
    | (_ :: _) as t', (_ :: _) as c => c ++ js " " ++ t'
    end.
Proof.
  unfold App.onMessageReceived.
  destruct (cleanedOutput t) as [|x t']; [reflexivity|].
  cbn [JsString.truthy fst App.finalTranscript App.setRealtimeText
       App.setFinalTranscript App.setProcessingFinalTranscript App.setIsProcessing].
  now destruct (App.finalTranscript s).
Qed.

(** C3. A Final completion with text [t], on a committed transcript [c]:
    with [t'] the text without its [[BLANK_AUDIO]] markers, trimmed,
    the committed transcript stays [c] when [t'] is empty, becomes [t']
    when [c] is empty, and [c], one space, [t'] otherwise. *)
Theorem final_completion_commits (t : jsstring) (s : App.state) :
  let c := App.finalTranscript s in
  let t' := JsString.trim (JsString.removeAll BLANK_AUDIO t) in
  App.finalTranscript (fst (App.onMessageReceived (Msg_complete t true) s)) =
    match t', c with
    | [], _ => c
    | _ :: _, [] => t'
    | _ :: _, _ :: _ => c ++ js " " ++ t'
    end.
Proof.
  intros c t'. rewrite finalTranscript_final_complete.
  change (cleanedOutput t) with t'. fold c.
  now destruct t', c.
Qed.

(** The commit examples of the specification, run on the handler. *)
Example commit_first :
  App.finalTranscript
    (App.deliver [Msg_complete (js "  [BLANK_AUDIO] hello world  ") true] App.initial)
  = js "hello world".
Proof. reflexivity. Qed.

Example commit_second :
  App.finalTranscript
    (App.deliver [Msg_complete (js "hello") true; Msg_complete (js "world") true]
       App.initial)
  = js "hello world".
Proof. reflexivity. Qed.

Example commit_empty :
  App.finalTranscript
    (App.deliver [Msg_complete (js "hello") true; Msg_complete (js " [BLANK_AUDIO] ") true]
       App.initial)
  = js "hello".
Proof. reflexivity. Qed.

(** C10. A Realtime completion with text [t] sets the live transcript to
    [t] without its [[BLANK_AUDIO]] markers, trimmed: the very text a Final
    completion would append. The committed transcript is not touched. *)
Theorem realtime_completion_sets_live (t : jsstring) (s : App.state) :
  let s' := fst (App.onMessageReceived (Msg_complete t false) s) in
  App.realtimeText s' = JsString.trim (JsString.removeAll BLANK_AUDIO t) /\
  App.finalTranscript s' = App.finalTranscript s /\
  App.finalTranscript
    (fst (App.onMessageReceived (Msg_complete t true) (App.clearTranscript s)))
  = App.realtimeText s'.
Proof.
  cbv zeta. repeat split.
  rewrite finalTranscript_final_complete.
  change (App.realtimeText (fst (App.onMessageReceived (Msg_complete t false) s)))
    with (cleanedOutput t).
  now destruct (cleanedOutput t).
Qed.

(** A partial text received while recording: the live transcript stays
    empty. *)
Example partial_text_does_not_set_live :
  App.recording recording_state = true /\
  App.realtimeText
    (fst (App.onMessageReceived (Msg_update (js "hello") None 1) recording_state))
  <> js "hello".
Proof. split; [reflexivity | discriminate]. Qed.

(** What writes the live transcript: a partial-text event replaces the
    raw tokens-per-second value and leaves the live transcript as it is;
    after any sequence of worker messages the live transcript is the
    cleaned text of the last completion if that one is Realtime, empty if
    it is Final, and unchanged without a completion. *)
Lemma live_follows_last_completion
  (output : jsstring) (tps : option Q) (numTokens : nat)
  (msgs : list message) (s : App.state) :
  let s' := fst (App.onMessageReceived (Msg_update output tps numTokens) s) in
  App.realtimeText s' = App.realtimeText s /\
  App.tps s' = tps /\
  App.realtimeText (App.deliver msgs s) =
    match last_complete msgs with
    | Some (t, false) => cleanedOutput t
    | Some (_, true) => js ""
    | None => App.realtimeText s
    end.
Proof.
  cbv zeta. repeat split.
  rewrite realtimeText_deliver.
  now destruct (last_complete msgs) as [[t [|]]|].
Qed.

(** C5. The streaming callback of a running generation posts each
    partial text in an [update] message, and the [update] case of the
    handler, under its comment "update the output text", reads [tps] only:
    the text is dropped and the live transcript is what it was. *)
Theorem partial_text_is_dropped
  (i : nat) (r : request) (output : jsstring) (tps : option Q) (numTokens : nat)
  (w : Worker.state) (a : App.state) :
  nth_error (Worker.tasks w) i = Some (gen_running r) ->
  snd (Worker.step (Streamed i output tps numTokens) w)
    = [Msg_update output tps numTokens] /\
  App.realtimeText
    (App.deliver (snd (Worker.step (Streamed i output tps numTokens) w)) a)
    = App.realtimeText a /\
  App.tps (App.deliver (snd (Worker.step (Streamed i output tps numTokens) w)) a)
    = tps.
Proof.
  intros Hi. cbn [Worker.step]. rewrite Hi. cbn [Worker.resume snd].
  repeat split.
Qed.

Lemma partial_text_is_dropped_witness :
  let w := fst (Worker.run [Receive (Cmd_generate realtime_request); Resolved 0 (js "")]
                  Worker.initial) in
  snd (Worker.step (Streamed 0 (js "hello") None 1) w)
    = [Msg_update (js "hello") None 1] /\
  App.realtimeText
    (App.deliver (snd (Worker.step (Streamed 0 (js "hello") None 1) w)) recording_state)
    = js "".
Proof.
  intros w.
  destruct (partial_text_is_dropped 0%nat realtime_request (js "hello") None 1%nat
              w recording_state eq_refl) as (H1 & H2 & _).
  split; [exact H1 | exact H2].
Defined.

(** C6, as claimed, fails: after stop-capture has emptied the live
    transcript and started the Final processing, the completion of a
    Realtime request admitted earlier still writes its text to the live
    transcript. *)
Lemma stale_realtime_completion_sets_live :
  let s := fst (App.onstop recording_state) in
  App.processingFinalTranscript s = true /\
  App.realtimeText s = js "" /\
  App.realtimeText (fst (App.onMessageReceived (Msg_complete (js "hello") false) s))
  = js "hello" /\
  App.realtimeText (fst (App.onMessageReceived (Msg_complete (js "hello") false) s))
  <> App.realtimeText s.
Proof. repeat split. discriminate. Qed.

(** C6, amended. No completion is matched against the request that
    produced it. A Realtime completion that arrives after stop-capture
    leaves the committed transcript as it is and overwrites the live
    transcript with its cleaned text; the Final completion empties the
    live transcript again. *)
Theorem stale_realtime_completion_effect (t t_final : jsstring) (s : App.state) :
  let s1 := fst (App.onstop s) in
  let s2 := fst (App.onMessageReceived (Msg_complete t false) s1) in
  let s3 := fst (App.onMessageReceived (Msg_complete t_final true) s2) in
  App.realtimeText s1 = js "" /\
  App.finalTranscript s2 = App.finalTranscript s /\
  App.realtimeText s2 = cleanedOutput t /\
  App.realtimeText s3 = js "".
Proof.
  cbv zeta. repeat split.
  - unfold App.onstop. now destruct (0 <? _)%nat.
  - rewrite finalTranscript_realtime_complete.
    unfold App.onstop. now destruct (0 <? _)%nat.
  - now rewrite realtimeText_onMessageReceived.
Qed.

(** C8. An error message of the worker, the one [load] posts when the
    model fails to load, reaches a handler that has no case for it: the
    state, [status] included, is what it was, and nothing is asked of the
    browser. *)
Theorem error_message_is_ignored (error_message : jsstring) (s : App.state) :
  snd (Worker.run [Receive Cmd_load; Rejected 0 error_message] Worker.initial)
    = [Msg_loading (js "Loading model..."); Msg_error (load_error error_message)] /\
  App.onMessageReceived (Msg_error (load_error error_message)) s = (s, []) /\
  App.status (fst (App.onMessageReceived (Msg_error (load_error error_message))
                     (fst (App.load_click App.initial))))
    = Some App.loading.
Proof. repeat split. Qed.

(** ** The Realtime window *)
Section Window.

Lemma MAX_SAMPLES_value : MAX_SAMPLES = 480000%Z.
Proof. reflexivity. Qed.

(** [slice(-n)] of an array of more than [n] elements is its last [n]
    elements. *)
Lemma slice_last {A : Type} (n : nat) (l : list A) :
  (0 < n <= List.length l)%nat ->
  slice (- Z.of_nat n) l = skipn (List.length l - n) l.
Proof.
  intros H. unfold slice.
  replace (- Z.of_nat n <? 0)%Z with true by (symmetry; apply Z.ltb_lt; lia).
  f_equal. lia.
Qed.

Lemma nth_error_skipn {A : Type} (k i : nat) (l : list A) :
  nth_error (skipn k l) i = nth_error l (k + i).
Proof.
  revert l. induction k as [|k IH]; intros l; [reflexivity|].
  destruct l as [|x l]; simpl; [now destruct i | apply IH].
Qed.

Lemma realtime_window_long (decoded : list sample) :
  (MAX_SAMPLES < Z.of_nat (List.length decoded))%Z ->
  realtime_window decoded =
    skipn (List.length decoded - Z.to_nat MAX_SAMPLES) decoded.
Proof.
  intros H. unfold realtime_window.
  replace (Z.of_nat (List.length decoded) >? MAX_SAMPLES)%Z with true
    by (symmetry; apply Z.gtb_lt; exact H).
  rewrite <- (Z2Nat.id MAX_SAMPLES) at 1 by (rewrite MAX_SAMPLES_value; lia).
  apply slice_last. rewrite MAX_SAMPLES_value in *. lia.
Qed.

Lemma realtime_window_short (decoded : list sample) :
  (Z.of_nat (List.length decoded) <= MAX_SAMPLES)%Z ->
  realtime_window decoded = decoded.
Proof.
  intros H. unfold realtime_window. rewrite Z.gtb_ltb.
  now replace (MAX_SAMPLES <? Z.of_nat (List.length decoded))%Z with false
    by (symmetry; apply Z.ltb_ge; exact H).
Qed.

End Window.

(** C7. The request a Realtime tick posts carries, for a decode of more
    than 480000 samples, exactly its last 480000 samples, each one the
    sample at the same place of the full decode; a decode of at most
    480000 samples is carried whole. *)
Theorem realtime_window_is_last_samples (decoded : list sample) :
  let n := Z.to_nat MAX_SAMPLES in
  MAX_SAMPLES = 480000%Z /\
  App.realtime_onloadend decoded =
    [App.PostMessage (Cmd_generate {| audio := realtime_window decoded;
                                      language := js "en"; isFinal := false |})] /\
  ((MAX_SAMPLES < Z.of_nat (List.length decoded))%Z ->
     Z.of_nat (List.length (realtime_window decoded)) = MAX_SAMPLES /\
     decoded = firstn (List.length decoded - n) decoded ++ realtime_window decoded /\
     forall i : nat, (i < n)%nat ->
       nth_error (realtime_window decoded) i =
       nth_error decoded (List.length decoded - n + i)) /\
  ((Z.of_nat (List.length decoded) <= MAX_SAMPLES)%Z ->
     realtime_window decoded = decoded).
Proof.
  intros n. split; [reflexivity|]. split; [reflexivity|]. split.
  - intros H. rewrite (realtime_window_long decoded H). fold n.
    assert (Hn : Z.of_nat n = MAX_SAMPLES)
      by (unfold n; rewrite MAX_SAMPLES_value; lia).
    repeat split.
    + rewrite length_skipn. lia.
    + symmetry. apply firstn_skipn.
    + intros i _. apply nth_error_skipn.
  - apply realtime_window_short.
Qed.

(** ** Lists of tasks *)
Section Tasks.

Context {A : Type}.

Lemma nth_error_update (k i : nat) (x : A) (l : list A) :
  nth_error (update k x l) i =
    if Nat.eqb i k
    then match nth_error l k with Some _ => Some x | None => None end
    else nth_error l i.
Proof.
  revert k i. induction l as [|y l IH]; intros k i.
  - destruct k, i; simpl; try reflexivity. now destruct (Nat.eqb i k).
  - destruct k, i; simpl; try reflexivity. apply IH.
Qed.

Lemma nth_error_update_other (k i : nat) (x : A) (l : list A) :
  i <> k -> nth_error (update k x l) i = nth_error l i.
Proof.
  intros H. rewrite nth_error_update.
  now destruct (Nat.eqb_spec i k).
Qed.

Lemma nth_error_update_same (k : nat) (x y : A) (l : list A) :
  nth_error l k = Some y -> nth_error (update k x l) k = Some x.
Proof.
  intros H. now rewrite nth_error_update, Nat.eqb_refl, H.
Qed.

Lemma nth_error_snoc_old (l : list A) (x y : A) (i : nat) :
  nth_error l i = Some y -> nth_error (l ++ [x]) i = Some y.
Proof.
  intros H. rewrite nth_error_app1; [exact H|].
  apply nth_error_Some. congruence.
Qed.

Lemma nth_error_snoc_new (l : list A) (x : A) :
  nth_error (l ++ [x]) (List.length l) = Some x.
Proof.
  rewrite nth_error_app2 by lia. now rewrite Nat.sub_diag.
Qed.

(** Replacing one task changes the requests in flight at its place only. *)
Lemma flat_map_update {B : Type} (f : A -> list B) (k : nat) (x y : A) (l : list A) :
  nth_error l k = Some y ->
  exists before after,
    flat_map f l = before ++ f y ++ after /\
    flat_map f (update k x l) = before ++ f x ++ after.
Proof.
  revert k. induction l as [|z l IH]; intros k H.
  - now destruct k.
  - destruct k as [|k]; simpl in *.
    + injection H as ->. now exists [], (flat_map f l).
    + destruct (IH k H) as (b & a & H1 & H2).
      exists (f z ++ b), a. rewrite H1, H2. now rewrite !app_assoc.
Qed.

End Tasks.

(** ** The single-flight gate of [src/worker.js] *)
Module Gate.

Import Worker.

Ltac getInstance_cases s :=
  unfold getInstance;
  destruct (tokenizer s); cbn;
  destruct (processor s); cbn;
  destruct (model s); reflexivity.

Lemma getInstance_tasks (s : state) : tasks (getInstance s) = tasks s.
Proof. getInstance_cases s. Qed.

Lemma getInstance_processing (s : state) : processing (getInstance s) = processing s.
Proof. getInstance_cases s. Qed.

Lemma in_flight_snoc (s : state) (t : pc) (l : list pc) :
  flat_map running_request (l ++ [t]) = flat_map running_request l ++ running_request t.
Proof. rewrite flat_map_app. simpl. now rewrite app_nil_r. Qed.

Lemma invariant_initial : invariant initial.
Proof. split; [simpl; lia | reflexivity]. Qed.

Lemma invariant_generate (r : request) (s : state) :
  invariant s -> invariant (fst (generate r s)).
Proof.
  intros Hinv. pose proof Hinv as [Hlen Hclear]. unfold generate.
  destruct (processing s) eqn:Hp; cbn [andb].
  - destruct (isFinal r); cbn [negb fst]; [|exact Hinv].
    split; unfold in_flight in *; cbn [tasks set_tasks processing];
      rewrite in_flight_snoc by exact s; simpl; rewrite app_nil_r;
      [exact Hlen | congruence].
  - cbn [begin_generation fst]. unfold invariant, in_flight in *.
    cbn [tasks set_tasks processing].
    rewrite getInstance_tasks, getInstance_processing.
    cbn [tasks processing set_processing].
    rewrite in_flight_snoc by exact s. rewrite (Hclear eq_refl).
    split; [simpl; lia | discriminate].
Qed.

Lemma invariant_load (s : state) : invariant s -> invariant (fst (load s)).
Proof.
  intros [Hlen Hclear]. unfold load, invariant, in_flight in *.
  cbn [fst tasks set_tasks processing].
  rewrite getInstance_tasks, getInstance_processing.
  rewrite in_flight_snoc by exact s. simpl. rewrite app_nil_r. now split.
Qed.

(** A task that moves between places that are not in flight, or stays
    in flight, with the flag as it was. *)
Lemma invariant_update_same (i : nat) (t t' : pc) (s : state) (c : list engine_call) :
  nth_error (tasks s) i = Some t ->
  running_request t' = running_request t ->
  invariant s ->
  invariant {| tokenizer := tokenizer s; processor := processor s; model := model s;
               processing := processing s; tasks := update i t' (tasks s);
               calls := c |}.
Proof.
  intros Ht Hsame [Hlen Hclear]. unfold invariant, in_flight in *.
  cbn [tasks processing].
  destruct (flat_map_update running_request i t' t (tasks s) Ht) as (b & a & H1 & H2).
  rewrite H2, Hsame, <- H1. now split.
Qed.

(** A task in flight that ends. *)
Lemma invariant_update_end (i : nat) (r : request) (t : pc) (p : bool) (s : state) :
  nth_error (tasks s) i = Some t ->
  running_request t = [r] ->
  invariant s ->
  invariant {| tokenizer := tokenizer s; processor := processor s; model := model s;
               processing := p; tasks := update i finished (tasks s);
               calls := calls s |}.
Proof.
  intros Ht Hr [Hlen Hclear]. unfold invariant, in_flight in *.
  cbn [tasks processing].
  destruct (flat_map_update running_request i finished t (tasks s) Ht) as (b & a & H1 & H2).
  rewrite H2. rewrite H1, Hr in Hlen. rewrite !length_app in Hlen. simpl in Hlen.
  assert (b = []) as -> by (destruct b; [reflexivity | simpl in Hlen; lia]).
  assert (a = []) as -> by (destruct a; [reflexivity | simpl in Hlen; lia]).
  simpl. split; [lia | reflexivity].
Qed.

(** A waiting task that is admitted while the flag is clear. *)
Lemma in_flight_begin (i : nat) (r : request) (s : state) :
  nth_error (tasks s) i = Some (gen_waiting r) ->
  processing s = false ->
  invariant s ->
  flat_map running_request (update i (gen_instance r) (tasks s)) = [r].
Proof.
  intros Ht Hp [_ Hclear].
  destruct (flat_map_update running_request i (gen_instance r) (gen_waiting r)
              (tasks s) Ht) as (b & a & H1 & H2).
  rewrite H2. unfold in_flight in Hclear. rewrite (Hclear Hp) in H1.
  simpl in H1. symmetry in H1. apply app_eq_nil in H1. destruct H1 as [-> ->].
  reflexivity.
Qed.

Lemma invariant_resume (i : nat) (t : pc) (a : action) (s : state) :
  nth_error (tasks s) i = Some t ->
  invariant s -> invariant (fst (resume i t a s)).
Proof.
  intros Ht Hinv.
  destruct t, a; cbn [resume fst]; try exact Hinv.
  - (* the timeout of a waiting request *)
    destruct (processing s) eqn:Hp; [exact Hinv|].
    cbn [begin_generation fst]. unfold invariant, in_flight.
    cbn [tasks set_tasks processing].
    rewrite getInstance_tasks, getInstance_processing.
    cbn [tasks processing set_processing].
    rewrite (in_flight_begin i r s Ht Hp Hinv).
    split; [simpl; lia | discriminate].
  - (* [getInstance()] resolves *)
    exact (invariant_update_same i (gen_instance r) (gen_running r) s
             (calls s ++ [inference r]) Ht eq_refl Hinv).
  - (* [getInstance()] rejects: the task ends, the flag stays *)
    exact (invariant_update_end i r (gen_instance r) (processing s) s Ht eq_refl Hinv).
  - (* the inference resolves *)
    exact (invariant_update_end i r (gen_running r) false s Ht eq_refl Hinv).
  - (* the inference rejects: the task ends, the flag stays *)
    exact (invariant_update_end i r (gen_running r) (processing s) s Ht eq_refl Hinv).
  - exact (invariant_update_same i load_instance load_warmup s
             (calls s ++ [warmup]) Ht eq_refl Hinv).
  - exact (invariant_update_same i load_instance finished s (calls s) Ht eq_refl Hinv).
  - exact (invariant_update_same i load_warmup finished s (calls s) Ht eq_refl Hinv).
  - exact (invariant_update_same i load_warmup finished s (calls s) Ht eq_refl Hinv).
Qed.

Lemma invariant_step (a : action) (s : state) :
  invariant s -> invariant (fst (step a s)).
Proof.
  intros Hinv.
  destruct a as [[|r]|i|i o|i e|i o q n|i x]; cbn [step];
    [ now apply invariant_load | now apply invariant_generate | .. ];
    (destruct (nth_error (tasks s) i) as [t|] eqn:Ht;
     [ now apply invariant_resume | exact Hinv ]).
Qed.

Lemma fst_run_cons (a : action) (jobs : list action) (s : state) :
  fst (run (a :: jobs) s) = fst (run jobs (fst (step a s))).
Proof.
  cbn [run]. destruct (step a s) as [s1 o1]. cbn [fst].
  now destruct (run jobs s1).
Qed.

Lemma invariant_run (jobs : list action) (s : state) :
  invariant s -> invariant (fst (run jobs s)).
Proof.
  revert s. induction jobs as [|a jobs IH]; intros s Hinv; [exact Hinv|].
  rewrite fst_run_cons. now apply IH, invariant_step.
Qed.

(** Every state the worker can be in. *)
Lemma invariant_reachable (jobs : list action) :
  invariant (fst (run jobs initial)).
Proof. apply invariant_run, invariant_initial. Qed.

(** A job for task [k] leaves every other task where it is. *)
Lemma resume_other (k i : nat) (t : pc) (a : action) (s : state) :
  i <> k ->
  nth_error (tasks (fst (resume k t a s))) i = nth_error (tasks s) i.
Proof.
  intros Hik.
  destruct t, a; cbn [resume fst tasks set_tasks set_processing call];
    try reflexivity; try (now apply nth_error_update_other).
  destruct (processing s); [reflexivity|].
  cbn [begin_generation fst tasks set_tasks].
  rewrite nth_error_update_other by exact Hik.
  now rewrite getInstance_tasks.
Qed.

(** A request that waits is still there after any job: waiting, or
    admitted by its own timeout. *)
Lemma waiting_not_discarded (i : nat) (r : request) (a : action) (s : state) :
  waiting s i r ->
  waiting (fst (step a s)) i r \/ admitted (fst (step a s)) i r.
Proof.
  unfold waiting, admitted. intros Hw.
  destruct a as [[|r']|k|k o|k e|k o q n|k x]; cbn [step].
  - left. unfold load. cbn [fst tasks set_tasks].
    rewrite getInstance_tasks. now apply nth_error_snoc_old.
  - left. unfold generate.
    destruct (processing s); cbn [andb];
      [destruct (isFinal r'); cbn [negb fst tasks set_tasks];
       [now apply nth_error_snoc_old | exact Hw]|].
    cbn [begin_generation fst tasks set_tasks]. rewrite getInstance_tasks.
    now apply nth_error_snoc_old.
  - destruct (Nat.eq_dec i k) as [<-|Hik].
    + rewrite Hw. cbn [resume].
      destruct (processing s); [now left|].
      right. left. cbn [begin_generation fst tasks set_tasks].
      rewrite getInstance_tasks. cbn [tasks set_processing].
      now apply nth_error_update_same with (y := gen_waiting r).
    + left. destruct (nth_error (tasks s) k); [|exact Hw].
      now rewrite resume_other.
  - destruct (Nat.eq_dec i k) as [<-|Hik]; [rewrite Hw; now left|].
    left. destruct (nth_error (tasks s) k); [|exact Hw]. now rewrite resume_other.
  - destruct (Nat.eq_dec i k) as [<-|Hik]; [rewrite Hw; now left|].
    left. destruct (nth_error (tasks s) k); [|exact Hw]. now rewrite resume_other.
  - destruct (Nat.eq_dec i k) as [<-|Hik]; [rewrite Hw; now left|].
    left. destruct (nth_error (tasks s) k); [|exact Hw]. now rewrite resume_other.
  - destruct (Nat.eq_dec i k) as [<-|Hik]; [rewrite Hw; now left|].
    left. destruct (nth_error (tasks s) k); [|exact Hw]. now rewrite resume_other.
Qed.

Lemma fst_run_app (pre post : list action) (s : state) :
  fst (run (pre ++ post) s) = fst (run post (fst (run pre s))).
Proof.
  revert s. induction pre as [|a pre IH]; intros s; [reflexivity|].
  change ((a :: pre) ++ post) with (a :: (pre ++ post)).
  now rewrite !fst_run_cons, IH.
Qed.

(** Through any sequence of jobs a waiting request is still waiting at
    the end, or some prefix of the jobs ends with its admission. *)
Lemma waiting_until_admitted (i : nat) (r : request) (jobs : list action) (s : state) :
  waiting s i r ->
  waiting (fst (run jobs s)) i r \/
  exists pre post, jobs = pre ++ post /\ admitted (fst (run pre s)) i r.
Proof.
  revert s. induction jobs as [|a jobs IH]; intros s Hw; [now left|].
  destruct (waiting_not_discarded i r a s Hw) as [Hw1|Ha1].
  - destruct (IH _ Hw1) as [Hend|(pre & post & -> & Ha)].
    + left. now rewrite fst_run_cons.
    + right. exists (a :: pre), post. split; [reflexivity|].
      now rewrite fst_run_cons.
  - right. exists [a], jobs. split; [reflexivity|].
    now rewrite fst_run_cons.
Qed.

(** While the flag is set, a Realtime request returns at once. *)
Lemma busy_realtime (r : request) (s : state) :
  processing s = true -> isFinal r = false ->
  step (Receive (Cmd_generate r)) s = (s, []).
Proof. intros Hp Hf. cbn [step]. unfold generate. now rewrite Hp, Hf. Qed.

(** While the flag is set, a Final request enters the polling loop. *)
Lemma busy_final (r : request) (s : state) :
  processing s = true -> isFinal r = true ->
  step (Receive (Cmd_generate r)) s
    = (set_tasks (tasks s ++ [gen_waiting r]) s, []).
Proof. intros Hp Hf. cbn [step]. unfold generate. now rewrite Hp, Hf. Qed.

(** While the flag is clear, any request is admitted at once. *)
Lemma clear_admits (r : request) (s : state) :
  processing s = false ->
  let s' := fst (step (Receive (Cmd_generate r)) s) in
  processing s' = true /\
  nth_error (tasks s') (List.length (tasks s)) = Some (gen_instance r) /\
  snd (step (Receive (Cmd_generate r)) s) = [Msg_start].
Proof.
  intros Hp. cbn [step]. unfold generate. rewrite Hp.
  cbn [andb begin_generation fst snd tasks set_tasks processing].
  rewrite getInstance_processing, getInstance_tasks.
  cbn [tasks processing set_processing].
  repeat split. apply nth_error_snoc_new.
Qed.

(** Once the inference in flight has resolved, the next timeout of a
    waiting request admits it. *)
Lemma admitted_after_completion
  (i j : nat) (r r' : request) (output : jsstring) (s : state) :
  invariant s ->
  waiting s i r ->
  nth_error (tasks s) j = Some (gen_running r') ->
  let s1 := fst (step (Resolved j output) s) in
  let s2 := fst (step (Timer i) s1) in
  processing s1 = false /\
  waiting s1 i r /\
  nth_error (tasks s2) i = Some (gen_instance r) /\
  in_flight s2 = [r] /\
  snd (step (Timer i) s1) = [Msg_start].
Proof.
  intros Hinv Hw Hj s1.
  assert (Hinv1 : invariant s1) by (apply invariant_step; exact Hinv).
  assert (Hij : i <> j) by (unfold waiting in Hw; congruence).
  assert (Hp1 : processing s1 = false)
    by (unfold s1; cbn [step]; rewrite Hj; reflexivity).
  assert (Hw1 : waiting s1 i r).
  { unfold waiting, s1. cbn [step]. rewrite Hj. now rewrite resume_other. }
  intros s2. unfold s2. cbn [step]. unfold waiting in Hw1. rewrite Hw1.
  cbn [resume]. rewrite Hp1.
  cbn [begin_generation fst snd tasks set_tasks]. unfold in_flight.
  cbn [tasks]. rewrite getInstance_tasks. cbn [tasks set_processing].
  repeat split; try assumption.
  - now apply nth_error_update_same with (y := gen_waiting r).
  - now apply in_flight_begin.
Qed.

(** The timeout of a waiting request while the flag is set: the loop
    goes round once more. *)
Lemma timeout_waits (i : nat) (r : request) (s : state) :
  waiting s i r -> processing s = true -> step (Timer i) s = (s, []).
Proof.
  unfold waiting. intros Hw Hp. cbn [step]. rewrite Hw. cbn [resume].
  now rewrite Hp.
Qed.

(** The timeout of a waiting request while the flag is clear: the
    request is admitted, and is the one request in flight. *)
Lemma timeout_admits (i : nat) (r : request) (s : state) :
  invariant s -> waiting s i r -> processing s = false ->
  nth_error (tasks (fst (step (Timer i) s))) i = Some (gen_instance r) /\
  in_flight (fst (step (Timer i) s)) = [r] /\
  processing (fst (step (Timer i) s)) = true /\
  snd (step (Timer i) s) = [Msg_start].
Proof.
  unfold waiting. intros Hinv Hw Hp. cbn [step]. rewrite Hw. cbn [resume].
  rewrite Hp. cbn [begin_generation fst snd tasks set_tasks processing].
  unfold in_flight. cbn [tasks].
  rewrite getInstance_tasks, getInstance_processing.
  cbn [tasks processing set_processing].
  repeat split.
  - now apply nth_error_update_same with (y := gen_waiting r).
  - now apply in_flight_begin.
Qed.

(** A request received while the flag is clear is the one request in
    flight from then on, whoever waits. *)
Lemma clear_admits_in_flight (r : request) (s : state) :
  invariant s -> processing s = false ->
  in_flight (fst (step (Receive (Cmd_generate r)) s)) = [r].
Proof.
  intros [_ Hclear] Hp. cbn [step]. unfold generate. rewrite Hp.
  cbn [andb begin_generation fst]. unfold in_flight in *.
  cbn [tasks set_tasks]. rewrite getInstance_tasks.
  cbn [tasks set_processing]. rewrite flat_map_app, (Hclear Hp).
  reflexivity.
Qed.

End Gate.

(** ** The engine handle of [src/worker.js] *)
Section Handle.

Import Worker.

(** After [getInstance] the three fields hold their promises. *)
Lemma getInstance_loaded (s : state) :
  tokenizer (getInstance s) = true /\
  processor (getInstance s) = true /\
  model (getInstance s) = true.
Proof.
  unfold getInstance.
  destruct (tokenizer s) eqn:Ht; cbn;
    destruct (processor s) eqn:Hp; cbn;
    destruct (model s) eqn:Hm; cbn; rewrite ?Ht, ?Hp, ?Hm; auto.
Qed.

(** With the three fields set, [getInstance] starts nothing. *)
Lemma getInstance_fixed (s : state) :
  tokenizer s = true -> processor s = true -> model s = true ->
  getInstance s = s.
Proof.
  intros Ht Hp Hm. unfold getInstance.
  rewrite Ht. cbv zeta. rewrite Hp. cbv zeta. now rewrite Hm.
Qed.

Lemma load_calls_once (s : state) :
  calls (fst (load (fst (load s)))) = calls (fst (load s)).
Proof.
  unfold load. cbn [fst calls set_tasks].
  destruct (getInstance_loaded s) as (Ht & Hp & Hm).
  now rewrite getInstance_fixed.
Qed.

End Handle.

(** C1, as claimed, fails: the Final request waits behind a Realtime
    inference; that inference completes; a Realtime request received
    before the next timeout of the Final request finds the flag clear and
    is admitted; at its timeout the Final request is not admitted, it is
    still in the loop. *)
Lemma final_overtaken_after_completion :
  let jobs := final_behind_realtime ++
              [ Resolved 0 (js "hello");
                Receive (Cmd_generate realtime_request);
                Timer 1 ] in
  let s := fst (Worker.run jobs Worker.initial) in
  snd (Worker.run jobs Worker.initial)
    = [Msg_start; Msg_complete (js "hello") false; Msg_start] /\
  Worker.waiting s 1 final_request /\
  ~ Worker.admitted s 1 final_request /\
  Worker.in_flight s = [realtime_request].
Proof.
  cbv zeta. split; [reflexivity|]. split; [reflexivity|]. split; [|reflexivity].
  intros [H|H]; vm_compute in H; discriminate.
Qed.

(** C1, amended. In every state the worker of [src/worker.js] reaches, at
    most one request is in flight. While the flag is set, a Realtime
    request returns at once and a Final request enters the polling loop;
    through any later jobs it is still in the loop or has been admitted.
    A timeout of the loop that finds the flag set changes nothing; the
    first one that finds it clear admits the request, which is then the
    one request in flight. So once the inference in flight has resolved,
    the timeout admits the request if it is the next job; a request that
    is received first, with the flag clear, is admitted at once and the
    Final request goes on waiting behind it. *)
Theorem single_flight_gate (jobs : list action) :
  let s := fst (Worker.run jobs Worker.initial) in
  (List.length (Worker.in_flight s) <= 1)%nat /\
  (forall r : request,
     Worker.processing s = true -> isFinal r = false ->
     Worker.step (Receive (Cmd_generate r)) s = (s, [])) /\
  (forall r : request,
     Worker.processing s = true -> isFinal r = true ->
     let s' := fst (Worker.step (Receive (Cmd_generate r)) s) in
     Worker.waiting s' (List.length (Worker.tasks s)) r /\
     Worker.in_flight s' = Worker.in_flight s) /\
  (forall (i : nat) (r : request) (later : list action),
     Worker.waiting s i r ->
     Worker.waiting (fst (Worker.run later s)) i r \/
     exists pre post,
       later = pre ++ post /\ Worker.admitted (fst (Worker.run pre s)) i r) /\
  (forall (i j : nat) (r r' : request) (output : jsstring),
     Worker.waiting s i r ->
     nth_error (Worker.tasks s) j = Some (gen_running r') ->
     let s1 := fst (Worker.step (Resolved j output) s) in
     let s2 := fst (Worker.step (Timer i) s1) in
     Worker.processing s1 = false /\
     Worker.admitted s2 i r /\
     Worker.in_flight s2 = [r]) /\
  (forall (i : nat) (r : request),
     Worker.waiting s i r -> Worker.processing s = true ->
     Worker.step (Timer i) s = (s, [])) /\
  (forall (i : nat) (r : request),
     Worker.waiting s i r -> Worker.processing s = false ->
     let s' := fst (Worker.step (Timer i) s) in
     Worker.admitted s' i r /\
     Worker.in_flight s' = [r] /\
     snd (Worker.step (Timer i) s) = [Msg_start]) /\
  (forall r : request,
     Worker.processing s = false ->
     let s' := fst (Worker.step (Receive (Cmd_generate r)) s) in
     Worker.processing s' = true /\
     Worker.in_flight s' = [r] /\
     snd (Worker.step (Receive (Cmd_generate r)) s) = [Msg_start]).
Proof.
  intros s.
  pose proof (Gate.invariant_reachable jobs) as Hinv. fold s in Hinv.
  split; [exact (proj1 Hinv)|].
  split; [intros r; apply Gate.busy_realtime|].
  split.
  { intros r Hp Hf s'. unfold s'. rewrite (Gate.busy_final r s Hp Hf).
    cbn [fst]. unfold Worker.waiting, Worker.in_flight.
    cbn [Worker.tasks Worker.set_tasks]. split.
    - apply nth_error_snoc_new.
    - rewrite flat_map_app. simpl. apply app_nil_r. }
  split; [intros i r later; apply Gate.waiting_until_admitted|].
  split.
  { intros i j r r' output Hw Hj.
    destruct (Gate.admitted_after_completion i j r r' output s Hinv Hw Hj)
      as (Hp1 & _ & Ha & Hf & _).
    cbv zeta. split; [exact Hp1|]. split; [left; exact Ha | exact Hf]. }
  split; [intros i r; apply Gate.timeout_waits|].
  split.
  { intros i r Hw Hp.
    destruct (Gate.timeout_admits i r s Hinv Hw Hp) as (Ha & Hf & _ & Hm).
    cbv zeta. split; [left; exact Ha|]. now split. }
  intros r Hp.
  destruct (Gate.clear_admits r s Hp) as (H1 & _ & H3).
  cbv zeta. split; [exact H1|]. split; [|exact H3].
  now apply Gate.clear_admits_in_flight.
Qed.

Lemma single_flight_gate_witness :
  Worker.step (Receive (Cmd_generate realtime_request))
    (fst (Worker.run final_behind_realtime Worker.initial))
  = (fst (Worker.run final_behind_realtime Worker.initial), []) /\
  Worker.in_flight
    (fst (Worker.step (Timer 1)
       (fst (Worker.step (Resolved 0 (js "hello"))
          (fst (Worker.run final_behind_realtime Worker.initial))))))
  = [final_request] /\
  Worker.step (Timer 1) (fst (Worker.run final_behind_realtime Worker.initial))
  = (fst (Worker.run final_behind_realtime Worker.initial), []) /\
  Worker.in_flight
    (fst (Worker.step (Timer 1)
       (fst (Worker.run (final_behind_realtime ++ [Resolved 0 (js "hello")])
              Worker.initial))))
  = [final_request].
Proof.
  destruct (single_flight_gate final_behind_realtime)
    as (_ & Hrt & _ & _ & Hadm & Hwait & _ & _).
  destruct (single_flight_gate (final_behind_realtime ++ [Resolved 0 (js "hello")]))
    as (_ & _ & _ & _ & _ & _ & Hclear & _).
  split; [apply Hrt; reflexivity|].
  split; [apply (Hadm 1%nat 0%nat final_request realtime_request (js "hello"));
          reflexivity|].
  split; [apply (Hwait 1%nat final_request); reflexivity|].
  apply (Hclear 1%nat final_request); reflexivity.
Defined.

(** C4. A Realtime request that arrives while the flag is set changes
    nothing in the worker and posts no message; with nothing delivered, the
    state of the control context, the live transcript in it, is what it
    was. *)
Theorem busy_realtime_request_is_discarded
  (r : request) (w : Worker.state) (a : App.state) :
  Worker.processing w = true ->
  isFinal r = false ->
  fst (Worker.step (Receive (Cmd_generate r)) w) = w /\
  snd (Worker.step (Receive (Cmd_generate r)) w) = [] /\
  App.deliver (snd (Worker.step (Receive (Cmd_generate r)) w)) a = a /\
  App.realtimeText (App.deliver (snd (Worker.step (Receive (Cmd_generate r)) w)) a)
    = App.realtimeText a.
Proof.
  intros Hp Hf. rewrite (Gate.busy_realtime r w Hp Hf). now repeat split.
Qed.

Lemma busy_realtime_request_is_discarded_witness :
  let w := fst (Worker.run [Receive (Cmd_generate realtime_request)] Worker.initial) in
  let a := App.setRealtimeText (js "hello") recording_state in
  snd (Worker.step (Receive (Cmd_generate realtime_request)) w) = [] /\
  App.realtimeText
    (App.deliver (snd (Worker.step (Receive (Cmd_generate realtime_request)) w)) a)
  = js "hello".
Proof.
  intros w a.
  destruct (busy_realtime_request_is_discarded realtime_request w a eq_refl eq_refl)
    as (_ & Hnone & _ & Hlive).
  split; [exact Hnone | exact Hlive].
Defined.

(** C2. In [src/worker.js] nothing catches a failed inference: the call
    of [generate] ends at the rejected [await], before [processing = false],
    with no message posted. The flag stays set with no request in flight, a
    later Realtime request is dropped and a later Final request polls for
    ever. In the pipeline variant the inference is inside [try]: the same
    failure posts an empty completion and clears the flag. *)
Theorem failed_inference_leaves_gate_busy :
  let jobs := [ Receive (Cmd_generate realtime_request);
                Resolved 0 (js "");
                Rejected 0 (js "out of memory") ] in
  let s := fst (Worker.run jobs Worker.initial) in
  let p := fst (PipelineWorker.run jobs PipelineWorker.initial) in
  Worker.processing s = true /\
  Worker.in_flight s = [] /\
  snd (Worker.run jobs Worker.initial) = [Msg_start] /\
  Worker.step (Receive (Cmd_generate realtime_request)) s = (s, []) /\
  Worker.processing
    (fst (Worker.run [Receive (Cmd_generate final_request); Timer 1; Timer 1] s)) = true /\
  Worker.in_flight
    (fst (Worker.run [Receive (Cmd_generate final_request); Timer 1; Timer 1] s)) = [] /\
  (forall (i : nat) (r : request) (e : jsstring) (w : Worker.state),
     nth_error (Worker.tasks w) i = Some (gen_running r) ->
     Worker.processing (fst (Worker.step (Rejected i e) w)) = Worker.processing w /\
     snd (Worker.step (Rejected i e) w) = []) /\
  PipelineWorker.processing p = false /\
  snd (PipelineWorker.run jobs PipelineWorker.initial)
    = [Msg_start; Msg_complete (js "") false] /\
  (forall (i : nat) (r : request) (e : jsstring) (w : PipelineWorker.state),
     nth_error (PipelineWorker.tasks w) i = Some (gen_running r) ->
     PipelineWorker.processing (fst (PipelineWorker.step (Rejected i e) w)) = false /\
     snd (PipelineWorker.step (Rejected i e) w) = [Msg_complete (js "") (isFinal r)]).
Proof.
  cbv zeta. repeat split.
  - cbn [Worker.step]. now rewrite H.
  - cbn [Worker.step]. now rewrite H.
  - cbn [PipelineWorker.step]. now rewrite H.
  - cbn [PipelineWorker.step]. now rewrite H.
Qed.

(** C9. Two [load] commands, the second before the first has completed.
    In [src/worker.js] each static field holds the promise of its load
    from the first call on, and the second call starts no load. In the
    pipeline variant the field is assigned only after the awaited
    [pipeline(...)] has resolved: the second call still finds it [null]
    and starts a second load of the model. *)
Theorem second_load_before_completion :
  let jobs := [Receive Cmd_load; Receive Cmd_load] in
  Worker.calls (fst (Worker.run jobs Worker.initial))
    = [tokenizer_from_pretrained; processor_from_pretrained; model_from_pretrained] /\
  model_loads (Worker.calls (fst (Worker.run jobs Worker.initial))) = 1%nat /\
  (forall w : Worker.state,
     Worker.calls (fst (Worker.load (fst (Worker.load w))))
     = Worker.calls (fst (Worker.load w))) /\
  PipelineWorker.calls (fst (PipelineWorker.run jobs PipelineWorker.initial))
    = [pipeline_call; pipeline_call] /\
  model_loads (PipelineWorker.calls (fst (PipelineWorker.run jobs PipelineWorker.initial)))
    = 2%nat.
Proof.
  cbv zeta. repeat split. apply load_calls_once.
Qed.

Lemma long_decode_length :
  Z.of_nat (List.length long_decode) = (MAX_SAMPLES + 1)%Z.
Proof.
  unfold long_decode. rewrite length_map, length_seq.
  apply Z2Nat.id. rewrite MAX_SAMPLES_value. lia.
Qed.

Lemma realtime_window_is_last_samples_witness :
  Z.of_nat (List.length (realtime_window long_decode)) = MAX_SAMPLES /\
  long_decode = firstn (List.length long_decode - Z.to_nat MAX_SAMPLES) long_decode
                  ++ realtime_window long_decode /\
  realtime_window [1; 2; 3]%Z = [1; 2; 3]%Z.
Proof.
  destruct (realtime_window_is_last_samples long_decode) as (_ & _ & Hlong & _).
  destruct (realtime_window_is_last_samples [1; 2; 3]%Z) as (_ & _ & _ & Hshort).
  assert (H : (MAX_SAMPLES < Z.of_nat (List.length long_decode))%Z)
    by (rewrite long_decode_length; lia).
  destruct (Hlong H) as (Hlen & Hsplit & _).
  split; [exact Hlen|]. split; [exact Hsplit|].
  apply Hshort. rewrite MAX_SAMPLES_value. simpl. lia.
Defined.

(** ** The stop scenario of the specification, on both contexts

    A Realtime request is in flight, a second one is dropped, capture
    stops and the Final request waits; the Realtime completion is posted
    (and shown), then the Final request is admitted and its text
    committed. *)
Example stop_with_realtime_in_flight :
  let jobs :=
    [ Receive (Cmd_generate realtime_request);
      Resolved 0 (js "");
      Receive (Cmd_generate realtime_request);
      Receive (Cmd_generate final_request);
      Resolved 0 (js "hello wor");
      Timer 1;
      Resolved 1 (js "");
      Resolved 1 (js " hello world [BLANK_AUDIO]") ] in
  let posted := snd (Worker.run jobs Worker.initial) in
  let stopped := fst (App.onstop recording_state) in
  posted = [ Msg_start; Msg_complete (js "hello wor") false;
             Msg_start; Msg_complete (js " hello world [BLANK_AUDIO]") true ] /\
  App.realtimeText (App.deliver (firstn 2 posted) stopped) = js "hello wor" /\
  App.realtimeText (App.deliver posted stopped) = js "" /\
  App.finalTranscript (App.deliver posted stopped) = js "hello world" /\
  Worker.processing (fst (Worker.run jobs Worker.initial)) = false.
Proof. vm_compute. repeat split. Qed.

(** Stop with nothing captured: no Final request, nothing committed. *)
Example stop_without_fragments :
  App.onstop (fst (App.onstart (App.setStatus (Some App.ready) App.initial)))
  = (App.setAllowRealtimeProcessing false (App.setStatus (Some App.ready) App.initial), []).
Proof. reflexivity. Qed.

(** * Further properties of the control context *)

Section Session_facts.

Import Session.

Lemma after_app (evs1 evs2 : list event) (s : App.state) :
  after (evs1 ++ evs2) s = after evs2 (after evs1 s).
Proof. unfold after. apply fold_left_app. Qed.

Lemma after_cons (ev : event) (evs : list event) (s : App.state) :
  after (ev :: evs) s = after evs (fst (handle ev s)).
Proof. reflexivity. Qed.

(** Fragments are appended to both buffers, empty ones to neither. *)
Lemma after_data (ds : list blob) (s : App.state) :
  App.chunks (after (map Recorder_data ds) s)
    = App.chunks s ++ filter has_data ds /\
  App.fullRecording (after (map Recorder_data ds) s)
    = App.fullRecording s ++ filter has_data ds /\
  App.finalTranscript (after (map Recorder_data ds) s) = App.finalTranscript s /\
  App.processingFinalTranscript (after (map Recorder_data ds) s)
    = App.processingFinalTranscript s.
Proof.
  revert s. induction ds as [|d ds IH]; intros s.
  - cbn. now rewrite !app_nil_r.
  - cbn [map]. rewrite after_cons.
    destruct (IH (fst (handle (Recorder_data d) s))) as (Hc & Hf & Ht & Hp).
    rewrite Hc, Hf, Ht, Hp. cbn [handle filter].
    unfold App.ondataavailable. fold (has_data d).
    destruct (has_data d); cbn; [|now repeat split].
    now rewrite <- !app_assoc.
Qed.

End Session_facts.

(** X1. A recording from start to stop: the two buffers hold the
    non-empty fragments, in order, and nothing else. Stop then asks for one
    Final read of exactly these fragments and marks the Final processing;
    with no such fragment it asks for nothing and leaves the mark as it
    was. The committed transcript is not touched on the way. *)
Theorem recording_reaches_stop (ds : list blob) (s : App.state) :
  let kept := filter Session.has_data ds in
  let s' := Session.after (Session.Recorder_start :: map Session.Recorder_data ds) s in
  App.chunks s' = kept /\
  App.fullRecording s' = kept /\
  snd (App.onstop s')
    = match kept with [] => [] | _ :: _ => [App.ReadFinalRecording kept] end /\
  App.processingFinalTranscript (fst (App.onstop s'))
    = match kept with [] => App.processingFinalTranscript s | _ :: _ => true end /\
  App.finalTranscript (fst (App.onstop s')) = App.finalTranscript s.
Proof.
  intros kept s'. unfold s'. rewrite after_cons.
  destruct (after_data ds (fst (Session.handle Session.Recorder_start s)))
    as (Hc & Hf & Ht & Hp).
  cbn [Session.handle App.onstart fst] in *.
  cbn [App.chunks App.fullRecording App.setRealtimeText App.setFullRecording
       App.setChunks app] in Hc, Hf.
  fold kept in Hc, Hf.
  split; [exact Hc|]. split; [exact Hf|].
  unfold App.onstop.
  cbn [App.fullRecording App.setRealtimeText App.setAllowRealtimeProcessing
       App.setRecording].
  rewrite Hf. destruct kept as [|d kept']; cbn [List.length Nat.ltb Nat.leb fst snd].
  - repeat split; cbn; [exact Hp | exact Ht].
  - repeat split; cbn. exact Ht.
Qed.

(** X2. From the initial state, whatever happens, the fragments the
    Realtime preview reads ([chunks]) are the fragments the Final request
    will read ([fullRecordingRef]), and none of them is empty. *)
Theorem buffers_agree (evs : list Session.event) :
  let s := Session.after evs App.initial in
  App.chunks s = App.fullRecording s /\
  Forall (fun data => Session.has_data data = true) (App.chunks s).
Proof.
  cbv zeta.
  assert (H : forall s,
             App.chunks s = App.fullRecording s /\
             Forall (fun data => Session.has_data data = true) (App.chunks s) ->
             App.chunks (Session.after evs s) = App.fullRecording (Session.after evs s) /\
             Forall (fun data => Session.has_data data = true)
                    (App.chunks (Session.after evs s))).
  { induction evs as [|ev evs IH]; intros s Hs; [exact Hs|].
    rewrite after_cons. apply IH. destruct Hs as [Heq Hall].
    destruct ev as [e| |d| |decoded| | |v|rd]; cbn [Session.handle].
    - destruct e as [| | | | | | |o f|]; try (split; assumption).
      unfold App.onMessageReceived.
      destruct f; [destruct (JsString.truthy (cleanedOutput o))|]; split; assumption.
    - split; [reflexivity | constructor].
    - unfold App.ondataavailable. fold (Session.has_data d).
      destruct (Session.has_data d) eqn:Hd; cbn; [|split; assumption].
      split; [now rewrite Heq|].
      apply Forall_app. split; [exact Hall | now constructor].
    - unfold App.onstop. destruct (0 <? _)%nat; split; assumption.
    - destruct decoded; split; assumption.
    - split; assumption.
    - split; assumption.
    - split; assumption.
    - split; assumption. }
  apply H. split; [reflexivity | constructor].
Qed.

Section Throttle.

Import Session.

Lemma realtime_effect_processing (s : App.state) :
  App.isProcessing s = true -> App.realtime_effect s = [].
Proof.
  intros H. unfold App.realtime_effect. rewrite H.
  now destruct (App.recording s), (App.allowRealtimeProcessing s).
Qed.

Lemma realtime_effect_not_recording (s : App.state) :
  App.recording s = false -> App.realtime_effect s = [].
Proof. intros H. unfold App.realtime_effect. now rewrite H. Qed.

(** Only a completion clears [isProcessing]. *)
Lemma isProcessing_kept (ev : event) (s : App.state) :
  is_completion ev = false ->
  App.isProcessing s = true ->
  App.isProcessing (fst (handle ev s)) = true.
Proof.
  intros Hev Hp.
  destruct ev as [e| |d| |decoded| | |v|rd]; cbn [handle].
  - destruct e; try discriminate; try exact Hp; reflexivity.
  - exact Hp.
  - unfold App.ondataavailable. now destruct (0 <? _)%nat.
  - unfold App.onstop. now destruct (0 <? _)%nat.
  - now destruct decoded.
  - exact Hp.
  - exact Hp.
  - exact Hp.
  - exact Hp.
Qed.

(** Only [onstart] sets [recording]. *)
Lemma recording_kept (ev : event) (s : App.state) :
  is_start ev = false ->
  App.recording s = false ->
  App.recording (fst (handle ev s)) = false.
Proof.
  intros Hev Hr.
  destruct ev as [e| |d| |decoded| | |v|rd]; cbn [handle]; try discriminate.
  - destruct e as [| | | | | | |o f|]; try exact Hr.
    unfold App.onMessageReceived.
    now destruct f; [destruct (JsString.truthy (cleanedOutput o))|].
  - unfold App.ondataavailable. now destruct (0 <? _)%nat.
  - unfold App.onstop. now destruct (0 <? _)%nat.
  - now destruct decoded.
  - exact Hr.
  - exact Hr.
  - exact Hr.
  - exact Hr.
Qed.

End Throttle.

Lemma realtime_read_posts (decoded : list sample) (s : App.state) :
  Session.handle (Session.Realtime_decoded decoded) s
  = (s, [App.PostMessage
           (Cmd_generate {| audio := realtime_window decoded;
                            language := js "en"; isFinal := false |})]).
Proof. reflexivity. Qed.

(** X3. Once a generation has been announced ([isProcessing] is set),
    the Realtime effect starts no new read of the recording, and asks the
    recorder for nothing, until a completion has arrived, whatever else
    happens in between (fragments, progress, partial texts, stop, edits,
    reads that complete). A read started before is not cancelled: when it
    completes it posts its Realtime request all the same, and leaves the
    state as it is. *)
Theorem no_new_read_while_processing
  (evs : list Session.event) (decoded : list sample) (s : App.state) :
  App.isProcessing s = true ->
  forallb (fun ev => negb (Session.is_completion ev)) evs = true ->
  App.isProcessing (Session.after evs s) = true /\
  App.realtime_effect (Session.after evs s) = [] /\
  Session.handle (Session.Realtime_decoded decoded) (Session.after evs s)
  = (Session.after evs s,
     [App.PostMessage
        (Cmd_generate {| audio := realtime_window decoded;
                         language := js "en"; isFinal := false |})]).
Proof.
  intros Hp Hevs.
  assert (H : App.isProcessing (Session.after evs s) = true).
  { revert s Hp Hevs. induction evs as [|ev evs IH]; intros s Hp Hevs; [exact Hp|].
    cbn [forallb] in Hevs. apply andb_prop in Hevs. destruct Hevs as [Hev Hevs].
    rewrite after_cons. apply IH; [|exact Hevs].
    apply isProcessing_kept; [|exact Hp].
    now destruct (Session.is_completion ev). }
  split; [exact H|]. split; [now apply realtime_effect_processing|].
  apply realtime_read_posts.
Qed.

Lemma no_new_read_while_processing_witness :
  let evs := [ Session.Worker_message Msg_start;
               Session.Recorder_data [Byte.x01];
               Session.Worker_message (Msg_update (js "hel") None 2) ] in
  App.realtime_effect (Session.after evs recording_state) = [] /\
  snd (Session.handle (Session.Realtime_decoded [0; 1]%Z)
         (Session.after evs recording_state))
  = [App.PostMessage
       (Cmd_generate {| audio := [0; 1]%Z; language := js "en"; isFinal := false |})] /\
  App.realtime_effect recording_state
  = [App.ReadRealtimeChunks [[Byte.x52; Byte.x49; Byte.x46; Byte.x46]]].
Proof.
  intros evs.
  destruct (no_new_read_while_processing
              [ Session.Recorder_data [Byte.x01];
                Session.Worker_message (Msg_update (js "hel") None 2) ]
              [0; 1]%Z
              (fst (Session.handle (Session.Worker_message Msg_start) recording_state))
              eq_refl eq_refl) as (_ & H1 & H2).
  split; [exact H1|]. split; [|reflexivity].
  unfold evs. rewrite after_cons, H2. reflexivity.
Defined.

(** X4. After stop-capture the Realtime effect starts no new read
    until the recorder starts again, whatever arrives in between: a late
    completion that clears [isProcessing] does not restart it. A read
    started before the stop is not cancelled: when it completes, after the
    stop, it still posts its Realtime request. *)
Theorem no_new_read_after_stop
  (evs : list Session.event) (decoded : list sample) (s : App.state) :
  forallb (fun ev => negb (Session.is_start ev)) evs = true ->
  App.recording (Session.after (Session.Recorder_stop :: evs) s) = false /\
  App.realtime_effect (Session.after (Session.Recorder_stop :: evs) s) = [] /\
  Session.handle (Session.Realtime_decoded decoded)
    (Session.after (Session.Recorder_stop :: evs) s)
  = (Session.after (Session.Recorder_stop :: evs) s,
     [App.PostMessage
        (Cmd_generate {| audio := realtime_window decoded;
                         language := js "en"; isFinal := false |})]).
Proof.
  intros Hevs.
  assert (H : App.recording (Session.after (Session.Recorder_stop :: evs) s) = false).
  { rewrite after_cons.
    assert (H0 : App.recording (fst (Session.handle Session.Recorder_stop s)) = false).
    { cbn [Session.handle]. unfold App.onstop. now destruct (0 <? _)%nat. }
    revert H0 Hevs. generalize (fst (Session.handle Session.Recorder_stop s)).
    induction evs as [|ev evs IH]; intros s0 H0 Hevs; [exact H0|].
    cbn [forallb] in Hevs. apply andb_prop in Hevs. destruct Hevs as [Hev Hevs].
    rewrite after_cons. apply IH; [|exact Hevs].
    apply recording_kept; [|exact H0].
    now destruct (Session.is_start ev). }
  split; [exact H|]. split; [now apply realtime_effect_not_recording|].
  apply realtime_read_posts.
Qed.

Lemma no_new_read_after_stop_witness :
  let evs := [ Session.Worker_message (Msg_complete (js "hello") false);
               Session.Recorder_data [Byte.x01] ] in
  App.realtime_effect (Session.after (Session.Recorder_stop :: evs) recording_state) = [] /\
  snd (Session.handle (Session.Realtime_decoded [0; 1]%Z)
         (Session.after (Session.Recorder_stop :: evs) recording_state))
  = [App.PostMessage
       (Cmd_generate {| audio := [0; 1]%Z; language := js "en"; isFinal := false |})].
Proof.
  intros evs.
  destruct (no_new_read_after_stop evs [0; 1]%Z recording_state eq_refl)
    as (_ & H1 & H2).
  split; [exact H1|]. rewrite H2. reflexivity.
Defined.

(** ** The load-progress display *)

Lemma same_file_true (a b : option jsstring) : App.same_file a b = true <-> a = b.
Proof.
  unfold App.same_file. destruct a as [x|], b as [y|]; try (split; congruence).
  destruct (list_eq_dec N.eq_dec x y); split; congruence.
Qed.

Lemma same_file_false (a b : option jsstring) : App.same_file a b = false <-> a <> b.
Proof.
  unfold App.same_file. destruct a as [x|], b as [y|]; try (split; congruence).
  destruct (list_eq_dec N.eq_dec x y); split; congruence.
Qed.

(** X5. A [done] report removes every entry of its file and no other
    entry; on a display that has no entry for a file, [initiate] followed
    by [done] for that file gives the display back. *)
Theorem done_removes_file (f : option jsstring) (item : progress_item) (s : App.state) :
  let items := App.progressItems s in
  let items' := App.progressItems (fst (App.onMessageReceived (Msg_done f) s)) in
  (forall x, In x items' <-> In x items /\ file x <> f) /\
  ((forall x, In x items -> file x <> file item) ->
   App.progressItems (App.deliver [Msg_initiate item; Msg_done (file item)] s) = items).
Proof.
  cbv zeta. split.
  - intros x. cbn. rewrite filter_In, negb_true_iff, same_file_false. tauto.
  - intros Hnew. cbn. rewrite filter_app. cbn.
    replace (App.same_file (file item) (file item)) with true
      by (symmetry; now apply same_file_true).
    cbn. rewrite app_nil_r.
    apply forallb_filter_id. apply forallb_forall. intros x Hx.
    apply negb_true_iff, same_file_false. now apply Hnew.
Qed.

Lemma file_spread (x data : progress_item) :
  file x = file data -> file (spread x data) = file x.
Proof. intros H. cbn. rewrite <- H. now destruct (file x). Qed.

(** X6. A [progress] report updates in place: the files of the display,
    and their order, stay as they are; each entry of the report's file
    takes the properties the report has and keeps its other properties,
    every other entry is kept whole; a report for a file that has no entry
    changes nothing. *)
Theorem progress_updates_in_place (data : progress_item) (s : App.state) :
  let items := App.progressItems s in
  let items' := App.progressItems (fst (App.onMessageReceived (Msg_progress data) s)) in
  let kept {A : Type} (old new : option A) : option A :=
    match new with Some v => Some v | None => old end in
  map file items' = map file items /\
  (forall i x, nth_error items i = Some x ->
     exists x', nth_error items' i = Some x' /\
       (file x <> file data -> x' = x) /\
       (file x = file data ->
          name x' = kept (name x) (name data) /\
          file x' = file x /\
          progress x' = kept (progress x) (progress data) /\
          loaded x' = kept (loaded x) (loaded data) /\
          total x' = kept (total x) (total data))) /\
  ((forall x, In x items -> file x <> file data) -> items' = items).
Proof.
  cbv zeta. cbn [App.onMessageReceived fst App.progressItems App.setProgressItems].
  repeat split.
  - rewrite map_map. apply map_ext_in. intros x _.
    destruct (App.same_file (file x) (file data)) eqn:H; [|reflexivity].
    apply file_spread. now apply same_file_true.
  - intros i x Hx. rewrite nth_error_map, Hx. cbn [option_map].
    eexists. split; [reflexivity|]. split.
    + intros Hne. now replace (App.same_file (file x) (file data)) with false
        by (symmetry; now apply same_file_false).
    + intros Heq. replace (App.same_file (file x) (file data)) with true
        by (symmetry; now apply same_file_true).
      split; [cbn; now destruct (name data)|].
      split; [now apply file_spread|].
      split; [cbn; now destruct (progress data)|].
      split; [cbn; now destruct (loaded data) | cbn; now destruct (total data)].
  - intros Hnone. rewrite <- (map_id (App.progressItems s)) at 2.
    apply map_ext_in. intros x Hx.
    now replace (App.same_file (file x) (file data)) with false
      by (symmetry; apply same_file_false, Hnone, Hx).
Qed.

(** ** More on cleaning *)
Section Cleaning_more.

Import JsString.

Lemma remove_scan_length (pat : jsstring) (k : nat) (s : jsstring) :
  (List.length (remove_scan pat k s) <= List.length s)%nat.
Proof.
  revert k. induction s as [|c s IH]; intros k; [reflexivity|].
  cbn [remove_scan]. destruct k as [|k].
  - destruct (startsWith pat (c :: s)); cbn [List.length].
    + specialize (IH (pred (List.length pat))). lia.
    + specialize (IH 0%nat). lia.
  - specialize (IH k). cbn [List.length]. lia.
Qed.

Lemma removeAll_absent (pat s : jsstring) :
  occurs pat s = false -> removeAll pat s = s.
Proof.
  destruct pat as [|a p]; [reflexivity|]. unfold removeAll.
  induction s as [|c s IH]; [reflexivity|].
  cbn [occurs remove_scan]. intros H. apply orb_false_iff in H.
  destruct H as [H1 H2]. rewrite H1. f_equal. now apply IH.
Qed.

Lemma removeAll_present (pat s : jsstring) :
  pat <> [] -> occurs pat s = true ->
  (List.length (removeAll pat s) < List.length s)%nat.
Proof.
  destruct pat as [|a p]; [congruence|]. intros _. unfold removeAll.
  induction s as [|c s IH]; [discriminate|].
  cbn [occurs remove_scan]. intros H.
  destruct (startsWith (a :: p) (c :: s)) eqn:Hm; cbn [List.length].
  - pose proof (remove_scan_length (a :: p) (pred (List.length (a :: p))) s) as Hle.
    cbn [List.length pred] in *. lia.
  - cbn [orb] in H. specialize (IH H). lia.
Qed.

Lemma trimStart_idem (s : jsstring) : trimStart (trimStart s) = trimStart s.
Proof.
  destruct (trimStart s) as [|c s'] eqn:H; [reflexivity|].
  apply trimStart_fixed. exact (trimStart_head s c s' H).
Qed.

Lemma trim_idem (s : jsstring) : trim (trim s) = trim s.
Proof.
  unfold trim at 1.
  assert (H1 : trimStart (trim s) = trim s).
  { destruct (trim s) as [|c s'] eqn:H; [reflexivity|].
    apply trimStart_fixed. exact (proj1 (trim_ends s) c s' H). }
  rewrite H1. unfold trim, trimEnd. now rewrite rev_involutive, trimStart_idem.
Qed.

End Cleaning_more.

(** X7. What the handler shows or commits of an output neither starts
    nor ends with white space, differs from the output without its markers
    by a run of white space at each end only, and is left as it is by
    a second [trim]. *)
Theorem cleanedOutput_is_trimmed (output : jsstring) :
  (exists l r,
     JsString.removeAll BLANK_AUDIO output = l ++ cleanedOutput output ++ r /\
     forallb JsString.is_whitespace l = true /\
     forallb JsString.is_whitespace r = true) /\
  (forall c s, cleanedOutput output = c :: s -> JsString.is_whitespace c = false) /\
  (forall c s, cleanedOutput output = s ++ [c] -> JsString.is_whitespace c = false) /\
  JsString.trim (cleanedOutput output) = cleanedOutput output.
Proof.
  unfold cleanedOutput. split; [apply trim_split|].
  split; [apply (proj1 (trim_ends _))|].
  split; [apply (proj2 (trim_ends _)) | apply trim_idem].
Qed.

(** X8. Removing the markers never makes an output longer; an output
    in which the marker occurs nowhere is only trimmed; an output in which
    it occurs gets shorter. *)
Theorem markers_removed (output : jsstring) :
  (List.length (JsString.removeAll BLANK_AUDIO output) <= List.length output)%nat /\
  (occurs BLANK_AUDIO output = false ->
   JsString.removeAll BLANK_AUDIO output = output /\
   cleanedOutput output = JsString.trim output) /\
  (occurs BLANK_AUDIO output = true ->
   (List.length (JsString.removeAll BLANK_AUDIO output) < List.length output)%nat).
Proof.
  split; [|split].
  - apply remove_scan_length.
  - intros H. unfold cleanedOutput. now rewrite (removeAll_absent _ _ H).
  - apply removeAll_present. discriminate.
Qed.

(** ** The elapsed-time label *)
Section Elapsed.

Import JsNumber.

Lemma read_digits_digits (u : Decimal.uint) : read_digits (digits u) = Some u.
Proof. induction u; cbn [digits read_digits]; try rewrite IHu; reflexivity. Qed.

(** A non-negative integer reads back from its decimal string. *)
Lemma read_nat_toString (n : Z) : (0 <= n)%Z -> read_nat (toString n) = Some n.
Proof.
  intros Hn. unfold read_nat, toString.
  destruct n as [|p|p]; [reflexivity | | lia].
  cbn [Z.to_int]. rewrite read_digits_digits. cbn [option_map].
  f_equal. unfold Z.of_uint.
  now rewrite DecimalPos.Unsigned.of_to.
Qed.

(** The seconds of a minute, padded: two places that read back. *)
Lemma padded_seconds (r : Z) :
  (0 <= r < 60)%Z ->
  List.length (padStart 2 (js "0") (toString r)) = 2%nat /\
  read_nat (padStart 2 (js "0") (toString r)) = Some r.
Proof.
  intros Hr.
  assert (H : exists k, (k < 60)%nat /\ r = Z.of_nat k) by (exists (Z.to_nat r); lia).
  destruct H as (k & Hk & ->). clear Hr.
  do 60 (destruct k as [|k]; [vm_compute; split; reflexivity|]).
  lia.
Qed.

End Elapsed.

(** X9. For a number of seconds from 0 to [Number.MAX_SAFE_INTEGER]
    the label is the decimal minutes, a colon and exactly two decimal
    places of seconds; read back, sixty times the minutes plus the seconds
    is the number it was made from. *)
Theorem formatElapsedTime_reads_back (seconds : Z) :
  (0 <= seconds <= MAX_SAFE_INTEGER)%Z ->
  exists mins secs : jsstring,
    formatElapsedTime seconds = Some (mins ++ js ":" ++ secs) /\
    List.length secs = 2%nat /\
    JsNumber.read_nat mins = Some (seconds / 60)%Z /\
    JsNumber.read_nat secs = Some (seconds mod 60)%Z /\
    (60 * (seconds / 60) + seconds mod 60 = seconds)%Z.
Proof.
  intros H.
  exists (JsNumber.toString (seconds / 60)),
         (JsNumber.padStart 2 (js "0") (JsNumber.toString (Z.rem seconds 60))).
  unfold formatElapsedTime.
  replace (Z.abs seconds <=? MAX_SAFE_INTEGER)%Z with true
    by (symmetry; apply Z.leb_le; lia).
  rewrite Z.rem_mod_nonneg by lia.
  destruct (padded_seconds (seconds mod 60)) as [Hlen Hread];
    [apply Z.mod_pos_bound; lia|].
  split; [reflexivity|]. repeat split; try assumption.
  - apply read_nat_toString. apply Z.div_pos; lia.
  - symmetry. apply Z.div_mod. lia.
Qed.

Lemma formatElapsedTime_reads_back_witness :
  exists mins secs : jsstring,
    formatElapsedTime 125 = Some (mins ++ js ":" ++ secs) /\
    List.length secs = 2%nat /\
    JsNumber.read_nat mins = Some 2%Z /\
    JsNumber.read_nat secs = Some 5%Z.
Proof.
  destruct (formatElapsedTime_reads_back 125) as (m & s & H1 & H2 & H3 & H4 & _);
    [unfold MAX_SAFE_INTEGER; lia|].
  exists m, s. repeat split; assumption.
Defined.

(** The labels of the first seconds, and of the last second modelled. *)
Example formatElapsedTime_examples :
  formatElapsedTime 0 = Some (js "0:00") /\
  formatElapsedTime 59 = Some (js "0:59") /\
  formatElapsedTime 60 = Some (js "1:00") /\
  formatElapsedTime 3725 = Some (js "62:05") /\
  formatElapsedTime MAX_SAFE_INTEGER = Some (js "150119987579016:31") /\
  formatElapsedTime (MAX_SAFE_INTEGER + 1) = None.
Proof. vm_compute. repeat split. Qed.

(** * Further properties of the inference context *)

(** ** The loads of [src/worker.js] *)
Section Loads.

Import Worker.

Ltac count_loads :=
  unfold loads_match, count_calls in *;
  cbn [calls tokenizer processor model call set_tasks set_processing] in *;
  rewrite ?filter_app, ?length_app;
  cbn [filter List.length is_tokenizer_load is_processor_load is_model_load];
  repeat split; lia.

Lemma loads_match_getInstance (s : state) :
  loads_match s -> loads_match (getInstance s).
Proof.
  intros (Ht & Hp & Hm). destruct s as [t p m pr ts cs].
  unfold getInstance. cbn [tokenizer processor model] in *.
  destruct t; cbn [tokenizer processor model call]; destruct p;
    cbn [tokenizer processor model call]; destruct m; count_loads.
Qed.

Lemma loads_match_frame (s s' : state) :
  tokenizer s' = tokenizer s -> processor s' = processor s -> model s' = model s ->
  (calls s' = calls s \/ (exists r, calls s' = calls s ++ [inference r]) \/
   calls s' = calls s ++ [warmup]) ->
  loads_match s -> loads_match s'.
Proof.
  intros Et Ep Em Hc (Ht & Hp & Hm). unfold loads_match.
  rewrite Et, Ep, Em.
  destruct Hc as [-> | [[r ->] | ->]]; unfold count_calls in *;
    rewrite ?filter_app, ?length_app; cbn; repeat split; lia.
Qed.

Lemma loads_match_begin (r : request) (s : state) (v : list pc -> list pc) :
  loads_match s ->
  loads_match (set_tasks (v (tasks (getInstance (set_processing true s))))
                 (getInstance (set_processing true s))).
Proof.
  intros H.
  apply loads_match_frame with (s := getInstance (set_processing true s));
    try reflexivity; [now left|].
  apply loads_match_getInstance.
  apply loads_match_frame with (s := s); try reflexivity; [now left | exact H].
Qed.

Lemma loads_match_step (a : action) (s : state) :
  loads_match s -> loads_match (fst (step a s)).
Proof.
  intros H.
  destruct a as [[|r]|i|i o|i e|i o q n|i x]; cbn [step].
  - unfold load. cbn [fst].
    apply loads_match_frame with (s := getInstance s); try reflexivity; [now left|].
    now apply loads_match_getInstance.
  - unfold generate.
    destruct (processing s); cbn [andb];
      [destruct (isFinal r); cbn [negb fst];
       [apply loads_match_frame with (s := s); try reflexivity; [now left | exact H]
       | exact H]|].
    cbn [begin_generation fst].
    exact (loads_match_begin r s (fun ts => ts ++ [gen_instance r]) H).
  - destruct (nth_error (tasks s) i) as [t|]; [|exact H].
    destruct t; cbn [resume fst]; try exact H.
    destruct (processing s); [exact H|]. cbn [begin_generation fst].
    exact (loads_match_begin r s (update i (gen_instance r)) H).
  - destruct (nth_error (tasks s) i) as [t|]; [|exact H].
    destruct t; cbn [resume fst]; try exact H;
      (apply loads_match_frame with (s := s); try reflexivity; [|exact H]).
    + right. left. now exists r.
    + now right; right.
  - destruct (nth_error (tasks s) i) as [t|]; [|exact H].
    destruct t; cbn [resume fst]; exact H.
  - destruct (nth_error (tasks s) i) as [t|]; [|exact H].
    destruct t; cbn [resume fst]; exact H.
  - destruct (nth_error (tasks s) i) as [t|]; [|exact H].
    destruct t; cbn [resume fst]; exact H.
Qed.

Lemma loads_match_run (jobs : list action) (s : state) :
  loads_match s -> loads_match (fst (run jobs s)).
Proof.
  revert s. induction jobs as [|a jobs IH]; intros s H; [exact H|].
  rewrite Gate.fst_run_cons. now apply IH, loads_match_step.
Qed.

End Loads.

(** X10. Whatever commands and engine events the worker of
    [src/worker.js] goes through, and in whatever order, the tokenizer,
    the processor and the model are each loaded at most once: exactly
    once when the static field holds its promise, never while it is
    [null]. *)
Theorem each_load_started_once (jobs : list action) :
  let s := fst (Worker.run jobs Worker.initial) in
  loads_match s /\
  (count_calls is_tokenizer_load (Worker.calls s) <= 1)%nat /\
  (count_calls is_processor_load (Worker.calls s) <= 1)%nat /\
  (count_calls is_model_load (Worker.calls s) <= 1)%nat.
Proof.
  intros s.
  assert (H : loads_match s)
    by (apply loads_match_run; repeat split).
  split; [exact H|]. destruct H as (Ht & Hp & Hm).
  rewrite Ht, Hp, Hm.
  now destruct (Worker.tokenizer s), (Worker.processor s), (Worker.model s);
    repeat split; auto.
Qed.

(** ** The pipeline variant *)
Section Pipeline_facts.

Import PipelineWorker.

Lemma pipeline_fst_run_cons (a : action) (jobs : list action) (s : state) :
  fst (run (a :: jobs) s) = fst (run jobs (fst (step a s))).
Proof.
  cbn [run]. destruct (step a s) as [s1 o1]. cbn [fst].
  now destruct (run jobs s1).
Qed.

(** With the pipeline in its field, no job starts a load or empties the
    field. *)
Lemma loaded_step (a : action) (s : state) :
  transcriber s = true ->
  transcriber (fst (step a s)) = true /\
  model_loads (calls (fst (step a s))) = model_loads (calls s).
Proof.
  intros Ht.
  assert (Hcall : forall c, (c = warmup \/ exists r, c = inference r) ->
                            model_loads (calls s ++ [c]) = model_loads (calls s)).
  { intros c Hc. unfold model_loads. rewrite filter_app, length_app.
    destruct Hc as [->|[r ->]]; cbn; lia. }
  destruct a as [[|r]|i|i o|i e|i o q n|i x]; cbn [step].
  - unfold load, getInstance. rewrite Ht. cbn. split; [exact Ht|].
    apply Hcall. now left.
  - unfold generate.
    destruct (processing s); cbn [andb];
      [destruct (isFinal r); cbn; now split|].
    unfold begin_generation, getInstance. cbn. rewrite Ht. cbn.
    split; [exact Ht|]. apply Hcall. right. now exists r.
  - destruct (nth_error (tasks s) i) as [t|]; [|now split].
    destruct t; cbn [resume fst]; try (now split).
    destruct (processing s); [now split|].
    unfold begin_generation, getInstance. cbn. rewrite Ht. cbn.
    split; [exact Ht|]. apply Hcall. right. now exists r.
  - destruct (nth_error (tasks s) i) as [t|]; [|now split].
    destruct t; cbn; try (now split); (split; [reflexivity|]).
    + apply Hcall. right. now exists r.
    + apply Hcall. now left.
  - destruct (nth_error (tasks s) i) as [t|]; [|now split].
    destruct t; cbn; now split.
  - destruct (nth_error (tasks s) i) as [t|]; [|now split].
    destruct t; cbn; try (now split). destruct (isFinal r); now split.
  - destruct (nth_error (tasks s) i) as [t|]; [|now split].
    destruct t; cbn; now split.
Qed.

Lemma begin_generation_facts (r : request) (s : state) :
  processing (fst (fst (begin_generation r s))) = true /\
  tasks (fst (fst (begin_generation r s))) = tasks s /\
  running_request (snd (fst (begin_generation r s))) = [r] /\
  snd (begin_generation r s) = [Msg_start].
Proof.
  unfold begin_generation, getInstance. cbn.
  now destruct (transcriber s).
Qed.

Lemma pipeline_invariant_update_same
  (i : nat) (t t' : pc) (s : state) (b : bool) (c : list engine_call) :
  nth_error (tasks s) i = Some t ->
  running_request t' = running_request t ->
  pipeline_invariant s ->
  pipeline_invariant {| transcriber := b; processing := processing s;
                        tasks := update i t' (tasks s); calls := c |}.
Proof.
  intros Hi Hsame [Hlen Hclear]. unfold pipeline_invariant, in_flight in *.
  cbn [tasks processing].
  destruct (flat_map_update running_request i t' t (tasks s) Hi) as (x & y & H1 & H2).
  rewrite H2, Hsame, <- H1. now split.
Qed.

Lemma pipeline_invariant_update_end
  (i : nat) (r : request) (t : pc) (p : bool) (s : state) :
  nth_error (tasks s) i = Some t ->
  running_request t = [r] ->
  pipeline_invariant s ->
  pipeline_invariant {| transcriber := transcriber s; processing := p;
                        tasks := update i finished (tasks s); calls := calls s |}.
Proof.
  intros Hi Hr [Hlen Hclear]. unfold pipeline_invariant, in_flight in *.
  cbn [tasks processing].
  destruct (flat_map_update running_request i finished t (tasks s) Hi)
    as (x & y & H1 & H2).
  rewrite H2. rewrite H1, Hr in Hlen. rewrite !length_app in Hlen. simpl in Hlen.
  assert (x = []) as -> by (destruct x; [reflexivity | simpl in Hlen; lia]).
  assert (y = []) as -> by (destruct y; [reflexivity | simpl in Hlen; lia]).
  simpl. split; [lia | reflexivity].
Qed.

Lemma pipeline_invariant_step (a : action) (s : state) :
  pipeline_invariant s -> pipeline_invariant (fst (step a s)).
Proof.
  intros Hinv. pose proof Hinv as [Hlen Hclear].
  destruct a as [[|r]|i|i o|i e|i o q n|i x]; cbn [step].
  - unfold load, getInstance.
    destruct (transcriber s); cbn [fst]; unfold pipeline_invariant, in_flight in *;
      cbn [tasks processing set_tasks call]; rewrite flat_map_app; cbn;
      rewrite app_nil_r; now split.
  - unfold generate.
    destruct (processing s) eqn:Hp; cbn [andb].
    + destruct (isFinal r); cbn [negb fst]; [|exact Hinv].
      unfold pipeline_invariant, in_flight in *.
      cbn [tasks processing set_tasks]. rewrite flat_map_app. cbn.
      rewrite app_nil_r. split; [exact Hlen | congruence].
    + destruct (begin_generation_facts r s) as (H1 & H2 & H3 & _).
      destruct (begin_generation r s) as [[s1 t1] o1]. cbn [fst snd] in *.
      unfold pipeline_invariant, in_flight in *.
      cbn [tasks processing set_tasks]. rewrite H1, H2, flat_map_app. cbn.
      rewrite H3, (Hclear eq_refl). cbn. split; [lia | discriminate].
  - destruct (nth_error (tasks s) i) as [t|] eqn:Hi; [|exact Hinv].
    destruct t; cbn [resume fst]; try exact Hinv.
    destruct (processing s) eqn:Hp; [exact Hinv|].
    destruct (begin_generation_facts r s) as (H1 & H2 & H3 & _).
    destruct (begin_generation r s) as [[s1 t1] o1]. cbn [fst snd] in *.
    unfold pipeline_invariant, in_flight in *.
    cbn [tasks processing set_tasks]. rewrite H1, H2.
    destruct (flat_map_update running_request i t1 (gen_waiting r) (tasks s) Hi)
      as (x & y & E1 & E2).
    rewrite E2, H3. rewrite (Hclear eq_refl) in E1. cbn in E1.
    symmetry in E1. apply app_eq_nil in E1. destruct E1 as [-> ->].
    cbn. split; [lia | discriminate].
  - destruct (nth_error (tasks s) i) as [t|] eqn:Hi; [|exact Hinv].
    destruct t; cbn [resume fst]; try exact Hinv.
    + exact (pipeline_invariant_update_same i (gen_instance r) (gen_running r) s
               true (calls s ++ [inference r]) Hi eq_refl Hinv).
    + exact (pipeline_invariant_update_end i r (gen_running r) false s Hi eq_refl Hinv).
    + exact (pipeline_invariant_update_same i load_instance load_warmup s
               true (calls s ++ [warmup]) Hi eq_refl Hinv).
    + exact (pipeline_invariant_update_same i load_warmup finished s
               (transcriber s) (calls s) Hi eq_refl Hinv).
  - destruct (nth_error (tasks s) i) as [t|] eqn:Hi; [|exact Hinv].
    destruct t; cbn [resume fst]; try exact Hinv.
    + exact (pipeline_invariant_update_end i r (gen_instance r) (processing s) s
               Hi eq_refl Hinv).
    + exact (pipeline_invariant_update_end i r (gen_running r) false s Hi eq_refl Hinv).
    + exact (pipeline_invariant_update_same i load_instance finished s
               (transcriber s) (calls s) Hi eq_refl Hinv).
    + exact (pipeline_invariant_update_same i load_warmup finished s
               (transcriber s) (calls s) Hi eq_refl Hinv).
  - destruct (nth_error (tasks s) i) as [t|] eqn:Hi; [|exact Hinv].
    destruct t; cbn [resume fst]; try exact Hinv. now destruct (isFinal r).
  - destruct (nth_error (tasks s) i) as [t|] eqn:Hi; [|exact Hinv].
    destruct t; cbn [resume fst]; exact Hinv.
Qed.

Lemma pipeline_invariant_run (jobs : list action) (s : state) :
  pipeline_invariant s -> pipeline_invariant (fst (run jobs s)).
Proof.
  revert s. induction jobs as [|a jobs IH]; intros s H; [exact H|].
  rewrite pipeline_fst_run_cons. now apply IH, pipeline_invariant_step.
Qed.

End Pipeline_facts.

(** X11. In the pipeline variant, once the pipeline is in the static
    field it stays there, and no later command or engine event starts
    another load of the model. *)
Theorem pipeline_loaded_for_good (jobs : list action) (s : PipelineWorker.state) :
  PipelineWorker.transcriber s = true ->
  PipelineWorker.transcriber (fst (PipelineWorker.run jobs s)) = true /\
  model_loads (PipelineWorker.calls (fst (PipelineWorker.run jobs s)))
    = model_loads (PipelineWorker.calls s).
Proof.
  revert s. induction jobs as [|a jobs IH]; intros s H; [now split|].
  rewrite pipeline_fst_run_cons.
  destruct (loaded_step a s H) as [H1 H2].
  destruct (IH _ H1) as [H3 H4]. split; [exact H3 | congruence].
Qed.

Lemma pipeline_loaded_for_good_witness :
  let s := fst (PipelineWorker.run [Receive Cmd_load; Resolved 0 (js "")]
                  PipelineWorker.initial) in
  model_loads
    (PipelineWorker.calls
       (fst (PipelineWorker.run
               [ Receive Cmd_load; Receive (Cmd_generate realtime_request);
                 Receive Cmd_load ] s))) = 1%nat.
Proof.
  intros s.
  destruct (pipeline_loaded_for_good
              [ Receive Cmd_load; Receive (Cmd_generate realtime_request);
                Receive Cmd_load ] s eq_refl) as [_ H].
  rewrite H. reflexivity.
Defined.

(** X12. The gate of the pipeline variant is single-flight as well: in
    every state it reaches at most one request is between
    [processing = true] and its end, and none while the flag is clear. *)
Theorem pipeline_single_flight (jobs : list action) :
  let s := fst (PipelineWorker.run jobs PipelineWorker.initial) in
  (List.length (PipelineWorker.in_flight s) <= 1)%nat /\
  (PipelineWorker.processing s = false -> PipelineWorker.in_flight s = []).
Proof.
  intros s. apply pipeline_invariant_run.
  split; [cbn; lia | reflexivity].
Qed.

(** ** The two flags *)
Section Mirror.

Lemma deliver_app (o1 o2 : list message) (a : App.state) :
  App.deliver (o1 ++ o2) a = App.deliver o2 (App.deliver o1 a).
Proof. unfold App.deliver. apply fold_left_app. Qed.

Lemma isProcessing_report (x : message) (a : App.state) :
  progress_report x = true ->
  App.isProcessing (App.deliver [x] a) = App.isProcessing a.
Proof. destruct x; try discriminate; reflexivity. Qed.

Lemma isProcessing_complete (o : jsstring) (f : bool) (a : App.state) :
  App.isProcessing (App.deliver [Msg_complete o f] a) = false.
Proof.
  unfold App.deliver. cbn [fold_left]. unfold App.onMessageReceived.
  destruct f; [destruct (JsString.truthy (cleanedOutput o))|]; reflexivity.
Qed.

Lemma worker_snd_run_cons (x : action) (jobs : list action) (s : Worker.state) :
  snd (Worker.run (x :: jobs) s)
  = snd (Worker.step x s) ++ snd (Worker.run jobs (fst (Worker.step x s))).
Proof.
  cbn [Worker.run]. destruct (Worker.step x s) as [s1 o1]. cbn [fst snd].
  now destruct (Worker.run jobs s1).
Qed.

Lemma pipeline_snd_run_cons (x : action) (jobs : list action) (s : PipelineWorker.state) :
  snd (PipelineWorker.run (x :: jobs) s)
  = snd (PipelineWorker.step x s)
      ++ snd (PipelineWorker.run jobs (fst (PipelineWorker.step x s))).
Proof.
  cbn [PipelineWorker.run]. destruct (PipelineWorker.step x s) as [s1 o1].
  cbn [fst snd]. now destruct (PipelineWorker.run jobs s1).
Qed.

(** One job keeps the flag of the control context, once the messages of
    the job are delivered, equal to the flag of the worker. *)
Lemma worker_mirror_step (x : action) (s : Worker.state) (a : App.state) :
  engine_job x = true ->
  App.isProcessing a = Worker.processing s ->
  App.isProcessing (App.deliver (snd (Worker.step x s)) a)
  = Worker.processing (fst (Worker.step x s)).
Proof.
  intros Hx Ha.
  destruct x as [[|r]|i|i o|i e|i o q n|i y]; cbn [Worker.step].
  - unfold Worker.load. cbn [fst snd].
    cbn [Worker.processing Worker.set_tasks].
    now rewrite Gate.getInstance_processing.
  - unfold Worker.generate.
    destruct (Worker.processing s) eqn:Hp; cbn [andb];
      [destruct (isFinal r); cbn [negb fst snd]; cbn; congruence|].
    cbn [Worker.begin_generation fst snd Worker.processing Worker.set_tasks].
    now rewrite Gate.getInstance_processing.
  - destruct (nth_error (Worker.tasks s) i) as [t|]; [|exact Ha].
    destruct t; cbn [Worker.resume]; try exact Ha.
    destruct (Worker.processing s) eqn:Hp; [cbn; congruence|].
    cbn [Worker.begin_generation fst snd Worker.processing Worker.set_tasks].
    now rewrite Gate.getInstance_processing.
  - destruct (nth_error (Worker.tasks s) i) as [t|]; [|exact Ha].
    destruct t; cbn [Worker.resume fst snd]; try exact Ha.
    apply isProcessing_complete.
  - destruct (nth_error (Worker.tasks s) i) as [t|]; [|exact Ha].
    destruct t; cbn [Worker.resume fst snd]; exact Ha.
  - destruct (nth_error (Worker.tasks s) i) as [t|]; [|exact Ha].
    destruct t; cbn [Worker.resume fst snd]; exact Ha.
  - destruct (nth_error (Worker.tasks s) i) as [t|]; [|exact Ha].
    destruct t; cbn [Worker.resume fst snd]; try exact Ha.
    now rewrite isProcessing_report.
Qed.

Lemma pipeline_mirror_step (x : action) (s : PipelineWorker.state) (a : App.state) :
  engine_job x = true ->
  App.isProcessing a = PipelineWorker.processing s ->
  App.isProcessing (App.deliver (snd (PipelineWorker.step x s)) a)
  = PipelineWorker.processing (fst (PipelineWorker.step x s)).
Proof.
  intros Hx Ha.
  destruct x as [[|r]|i|i o|i e|i o q n|i y]; cbn [PipelineWorker.step].
  - unfold PipelineWorker.load, PipelineWorker.getInstance.
    now destruct (PipelineWorker.transcriber s).
  - unfold PipelineWorker.generate.
    destruct (PipelineWorker.processing s) eqn:Hp; cbn [andb];
      [destruct (isFinal r); cbn [negb fst snd]; cbn; congruence|].
    destruct (begin_generation_facts r s) as (H1 & _ & _ & H4).
    destruct (PipelineWorker.begin_generation r s) as [[s1 t1] o1].
    cbn [fst snd] in *. subst o1. exact (eq_sym H1).
  - destruct (nth_error (PipelineWorker.tasks s) i) as [t|]; [|exact Ha].
    destruct t; cbn [PipelineWorker.resume]; try exact Ha.
    destruct (PipelineWorker.processing s) eqn:Hp; [cbn; congruence|].
    destruct (begin_generation_facts r s) as (H1 & _ & _ & H4).
    destruct (PipelineWorker.begin_generation r s) as [[s1 t1] o1].
    cbn [fst snd] in *. subst o1. exact (eq_sym H1).
  - destruct (nth_error (PipelineWorker.tasks s) i) as [t|]; [|exact Ha].
    destruct t; cbn [PipelineWorker.resume fst snd]; try exact Ha.
    apply isProcessing_complete.
  - destruct (nth_error (PipelineWorker.tasks s) i) as [t|]; [|exact Ha].
    destruct t; cbn [PipelineWorker.resume fst snd]; try exact Ha.
    apply isProcessing_complete.
  - destruct (nth_error (PipelineWorker.tasks s) i) as [t|]; [|exact Ha].
    destruct t; cbn [PipelineWorker.resume fst snd]; try exact Ha.
    now destruct (isFinal r).
  - destruct (nth_error (PipelineWorker.tasks s) i) as [t|]; [|exact Ha].
    destruct t; cbn [PipelineWorker.resume fst snd]; try exact Ha.
    now rewrite isProcessing_report.
Qed.

End Mirror.

(** X13. The flag of the control context follows the flag of the
    worker: after any jobs of the worker (its callbacks posting progress
    reports), once the messages it has posted are delivered,
    [isProcessing] is what [processing] is, in [src/worker.js] and in the
    pipeline variant. *)
Theorem isProcessing_follows_processing (jobs : list action) (a : App.state) :
  forallb engine_job jobs = true ->
  App.isProcessing a = false ->
  App.isProcessing (App.deliver (snd (Worker.run jobs Worker.initial)) a)
  = Worker.processing (fst (Worker.run jobs Worker.initial)) /\
  App.isProcessing (App.deliver (snd (PipelineWorker.run jobs PipelineWorker.initial)) a)
  = PipelineWorker.processing (fst (PipelineWorker.run jobs PipelineWorker.initial)).
Proof.
  intros Hjobs Ha. split.
  - assert (Ha' : App.isProcessing a = Worker.processing Worker.initial) by exact Ha.
    revert Ha'. clear Ha. generalize Worker.initial. revert a.
    induction jobs as [|x jobs IH]; intros a s Ha; [exact Ha|].
    cbn [forallb] in Hjobs. apply andb_prop in Hjobs. destruct Hjobs as [Hx Hjobs].
    rewrite worker_snd_run_cons, Gate.fst_run_cons, deliver_app.
    apply IH; [exact Hjobs|]. now apply worker_mirror_step.
  - assert (Ha' : App.isProcessing a = PipelineWorker.processing PipelineWorker.initial)
      by exact Ha.
    revert Ha'. clear Ha. generalize PipelineWorker.initial. revert a.
    induction jobs as [|x jobs IH]; intros a s Ha; [exact Ha|].
    cbn [forallb] in Hjobs. apply andb_prop in Hjobs. destruct Hjobs as [Hx Hjobs].
    rewrite pipeline_snd_run_cons, pipeline_fst_run_cons, deliver_app.
    apply IH; [exact Hjobs|]. now apply pipeline_mirror_step.
Qed.

Lemma isProcessing_follows_processing_witness :
  let jobs := [ Receive (Cmd_generate realtime_request);
                Resolved 0 (js "");
                Rejected 0 (js "out of memory") ] in
  App.isProcessing (App.deliver (snd (Worker.run jobs Worker.initial)) recording_state)
    = true /\
  App.isProcessing
    (App.deliver (snd (PipelineWorker.run jobs PipelineWorker.initial)) recording_state)
    = false.
Proof.
  intros jobs.
  destruct (isProcessing_follows_processing jobs recording_state eq_refl eq_refl)
    as [H1 H2].
  split; [rewrite H1 | rewrite H2]; reflexivity.
Defined.

(** ** The committed transcript *)

Lemma finalTranscript_grows (ev : Session.event) (s : App.state) :
  Session.is_edit ev = false ->
  exists suffix,
    App.finalTranscript (fst (Session.handle ev s)) = App.finalTranscript s ++ suffix.
Proof.
  intros Hev.
  assert (Hsame : forall s', App.finalTranscript s' = App.finalTranscript s ->
                             exists suffix,
                               App.finalTranscript s' = App.finalTranscript s ++ suffix)
    by (intros s' ->; exists []; now rewrite app_nil_r).
  destruct ev as [e| |d| |decoded| | |v|rd]; cbn [Session.handle]; try discriminate.
  - destruct e as [| | | | | | |o f|]; try (apply Hsame; reflexivity).
    destruct f; [|apply Hsame; reflexivity].
    rewrite finalTranscript_final_complete.
    destruct (cleanedOutput o) as [|c t]; [apply Hsame; reflexivity|].
    destruct (App.finalTranscript s) as [|p ps].
    + now exists (c :: t).
    + now exists (js " " ++ c :: t).
  - apply Hsame. reflexivity.
  - apply Hsame. unfold App.ondataavailable. now destruct (0 <? _)%nat.
  - apply Hsame. unfold App.onstop. now destruct (0 <? _)%nat.
  - apply Hsame. now destruct decoded.
  - apply Hsame. reflexivity.
  - apply Hsame. reflexivity.
Qed.

(** X15. The committed transcript is append-only: through any events
    other than the user's own edit or clear (worker messages of every
    kind, recorder callbacks, stop, the load button) what was committed
    stays, as a prefix of what is committed afterwards. *)
Theorem committed_is_append_only (evs : list Session.event) (s : App.state) :
  forallb (fun ev => negb (Session.is_edit ev)) evs = true ->
  exists suffix,
    App.finalTranscript (Session.after evs s) = App.finalTranscript s ++ suffix.
Proof.
  revert s. induction evs as [|ev evs IH]; intros s Hevs.
  - exists []. now rewrite app_nil_r.
  - cbn [forallb] in Hevs. apply andb_prop in Hevs. destruct Hevs as [Hev Hevs].
    rewrite after_cons.
    destruct (finalTranscript_grows ev s) as [x Hx];
      [now destruct (Session.is_edit ev)|].
    destruct (IH (fst (Session.handle ev s)) Hevs) as [y Hy].
    exists (x ++ y). now rewrite Hy, Hx, app_assoc.
Qed.

Lemma committed_is_append_only_witness :
  exists suffix,
    App.finalTranscript
      (Session.after [ Session.Recorder_stop;
                       Session.Worker_message (Msg_complete (js "hel") false);
                       Session.Worker_message (Msg_complete (js " world ") true) ]
         (App.setFinalTranscript (js "hello") recording_state))
    = js "hello" ++ suffix.
Proof.
  apply (committed_is_append_only
           [ Session.Recorder_stop;
             Session.Worker_message (Msg_complete (js "hel") false);
             Session.Worker_message (Msg_complete (js " world ") true) ]
           (App.setFinalTranscript (js "hello") recording_state)).
  reflexivity.
Defined.

(** ** The worker with model and language selection *)
Section Selection.

Import DynamicWorker.

Variables PM PL : jsstring -> Prop.

Lemma dynamic_fst_run_cons (a : action) (jobs : list action) (s : state) :
  fst (run (a :: jobs) s) = fst (run jobs (fst (step a s))).
Proof.
  cbn [run]. destruct (step a s) as [s1 o1]. cbn [fst].
  now destruct (run jobs s1).
Qed.

Lemma task_model_selected (i : nat) (t : pc) (m : jsstring) (s : state) :
  selected PM PL s -> nth_error (tasks s) i = Some t -> In m (task_models t) -> PM m.
Proof.
  intros (_ & _ & Ht & _) Hi Hm.
  rewrite Forall_forall in Ht. apply Ht.
  apply in_flat_map. exists t. split; [|exact Hm].
  eapply nth_error_In. exact Hi.
Qed.

Lemma tasks_update_selected (i : nat) (t t' : pc) (l : list pc) :
  nth_error l i = Some t ->
  Forall PM (flat_map task_models l) ->
  Forall PM (task_models t') ->
  Forall PM (flat_map task_models (update i t' l)).
Proof.
  intros Hi Hl Ht'.
  destruct (flat_map_update task_models i t' t l Hi) as (b & a & H1 & H2).
  rewrite H2. rewrite H1 in Hl.
  apply Forall_app in Hl. destruct Hl as [Hb Hl].
  apply Forall_app in Hl. destruct Hl as [_ Ha].
  apply Forall_app. split; [exact Hb|]. apply Forall_app. now split.
Qed.

Ltac selected_goal :=
  unfold selected in *;
  cbn [currentModel currentLanguage tasks calls transcribers processing
       set set_transcribers setCurrentModel setCurrentLanguage set_processing
       set_tasks call start_inference] in *;
  rewrite ?map_app, ?flat_map_app, ?Forall_app;
  cbn [map flat_map task_models call_model call_languages app] in *.

Lemma selected_set (m : jsstring) (s : state) :
  selected PM PL s -> selected PM PL (set m s).
Proof. unfold set. now destruct (has m s). Qed.

Lemma selected_getInstance (m : jsstring) (s : state) :
  PM m -> selected PM PL s -> selected PM PL (fst (getInstance m s)).
Proof.
  intros Hm (H1 & H2 & H3 & H4 & H5). unfold getInstance.
  destruct (has m s); cbn [fst]; [now repeat split|].
  selected_goal. repeat split; auto.
Qed.

Lemma selected_start_inference (r : request) (m : jsstring) (s : state) :
  PM m -> selected PM PL s -> selected PM PL (start_inference r m s).
Proof.
  intros Hm (H1 & H2 & H3 & H4 & H5).
  selected_goal. repeat split; auto.
Qed.

Lemma selected_set_tasks (v : list pc) (s : state) :
  Forall PM (flat_map task_models v) ->
  selected PM PL s -> selected PM PL (set_tasks v s).
Proof. intros Hv (H1 & H2 & H3 & H4 & H5). now repeat split. Qed.

Lemma selected_frame (s s' : state) :
  currentModel s' = currentModel s -> currentLanguage s' = currentLanguage s ->
  tasks s' = tasks s -> calls s' = calls s ->
  selected PM PL s -> selected PM PL s'.
Proof. unfold selected. now intros -> -> -> ->. Qed.

Lemma begin_generation_selected (r : request) (s : state) :
  selected PM PL s ->
  selected PM PL (fst (fst (begin_generation r s))) /\
  Forall PM (task_models (snd (fst (begin_generation r s)))) /\
  tasks (fst (fst (begin_generation r s))) = tasks s.
Proof.
  intros H. pose proof H as (H1 & _).
  unfold begin_generation.
  assert (Hs : selected PM PL (set_processing true s))
    by (apply (selected_frame s); try reflexivity; exact H).
  cbn [currentModel set_processing].
  pose proof (selected_getInstance (currentModel s) _ H1 Hs) as Hg.
  unfold getInstance in *.
  destruct (has (currentModel s) (set_processing true s)); cbn [fst snd] in *.
  - split; [|split; [constructor | reflexivity]].
    now apply selected_start_inference.
  - split; [exact Hg|]. split; [|reflexivity]. cbn. now constructor.
Qed.

Lemma selected_step (a : action) (s : state) :
  (forall m, a = Receive (SetModel m) -> PM m) ->
  (forall l, a = Receive (SetLanguage l) -> PL l) ->
  selected PM PL s -> selected PM PL (fst (step a s)).
Proof.
  intros HM HL H. pose proof H as (H1 & H2 & H3 & H4 & H5).
  destruct a as [[|r|m|l]|i|i o|i e|i o q n|i x]; cbn [step].
  - (* load *)
    unfold load.
    pose proof (selected_getInstance (currentModel s) s H1 H) as Hg.
    unfold getInstance in *.
    destruct (has (currentModel s) s); cbn [fst] in *.
    + selected_goal. repeat split; auto; try (now rewrite app_nil_r).
    + destruct Hg as (G1 & G2 & G3 & G4 & G5).
      selected_goal. repeat split; auto.
  - (* generate *)
    unfold generate.
    destruct (processing s); cbn [andb];
      [destruct (isFinal r); cbn [negb fst]; [|exact H];
       selected_goal; repeat split; auto; try (now rewrite app_nil_r)|].
    destruct (begin_generation_selected r s H) as (Hs & Ht & _).
    destruct (begin_generation r s) as [[s1 t1] o1]. cbn [fst snd] in *.
    destruct Hs as (G1 & G2 & G3 & G4 & G5).
    selected_goal. repeat split; auto; try (now rewrite app_nil_r).
  - (* setModel *)
    unfold setModel.
    assert (Hm : PM m) by (apply HM; reflexivity).
    assert (Hs : selected PM PL (setCurrentModel m s)) by now repeat split.
    pose proof (selected_getInstance m _ Hm Hs) as Hg.
    unfold getInstance in *.
    destruct (has m (setCurrentModel m s)); cbn [fst] in *; [exact Hs|].
    destruct Hg as (G1 & G2 & G3 & G4 & G5).
    selected_goal. repeat split; auto.
  - (* setLanguage *)
    cbn [fst]. assert (Hl : PL l) by (apply HL; reflexivity). now repeat split.
  - destruct (nth_error (tasks s) i) as [t|] eqn:Hi; [|exact H].
    destruct t; cbn [resume fst]; try exact H.
    destruct (processing s); [exact H|].
    destruct (begin_generation_selected r s H) as (Hs & Ht & Htasks).
    destruct (begin_generation r s) as [[s1 t1] o1]. cbn [fst snd] in *.
    apply selected_set_tasks; [|exact Hs].
    rewrite Htasks.
    now apply (tasks_update_selected i (gen_waiting r)).
  - destruct (nth_error (tasks s) i) as [t|] eqn:Hi; [|exact H].
    destruct t; cbn [resume fst]; try exact H.
    + (* getInstance of a generate resolves *)
      assert (Hm : PM modelType)
        by (apply (task_model_selected i _ modelType s H Hi); now left).
      pose proof (selected_start_inference r modelType _ Hm
                    (selected_set modelType s H)) as Hs.
      apply selected_set_tasks; [|exact Hs].
      replace (tasks (start_inference r modelType (set modelType s))) with (tasks s)
        by (unfold set; now destruct (has modelType s)).
      apply (tasks_update_selected i (gen_instance r modelType)); auto; constructor.
    + apply (selected_frame (set_tasks (update i finished (tasks s)) s));
        try reflexivity.
      apply selected_set_tasks; [|exact H].
      apply (tasks_update_selected i (gen_running r)); auto; constructor.
    + assert (Hm : PM modelType)
        by (apply (task_model_selected i _ modelType s H Hi); now left).
      assert (Hs : selected PM PL (call (warmup modelType) (set modelType s))).
      { pose proof (selected_set modelType s H) as (G1 & G2 & G3 & G4 & G5).
        selected_goal. repeat split; auto. }
      apply selected_set_tasks; [|exact Hs].
      replace (tasks (call (warmup modelType) (set modelType s))) with (tasks s)
        by (unfold set; now destruct (has modelType s)).
      apply (tasks_update_selected i (load_instance modelType)); auto; constructor.
    + apply selected_set_tasks; [|exact H].
      apply (tasks_update_selected i load_warmup); auto; constructor.
    + apply selected_set_tasks; [|now apply selected_set].
      replace (tasks (set modelType s)) with (tasks s)
        by (unfold set; now destruct (has modelType s)).
      apply (tasks_update_selected i (set_model_instance modelType)); auto; constructor.
  - destruct (nth_error (tasks s) i) as [t|] eqn:Hi; [|exact H].
    destruct t; cbn [resume fst]; try exact H.
    + apply selected_set_tasks; [|exact H].
      apply (tasks_update_selected i (gen_instance r modelType)); auto; constructor.
    + apply (selected_frame (set_tasks (update i finished (tasks s)) s));
        try reflexivity.
      apply selected_set_tasks; [|exact H].
      apply (tasks_update_selected i (gen_running r)); auto; constructor.
    + apply selected_set_tasks; [|exact H].
      apply (tasks_update_selected i (load_instance modelType)); auto; constructor.
    + apply selected_set_tasks; [|exact H].
      apply (tasks_update_selected i load_warmup); auto; constructor.
    + apply selected_set_tasks; [|exact H].
      apply (tasks_update_selected i (set_model_instance modelType)); auto; constructor.
  - destruct (nth_error (tasks s) i) as [t|] eqn:Hi; [|exact H].
    destruct t; cbn [resume fst]; try exact H. now destruct (isFinal r).
  - destruct (nth_error (tasks s) i) as [t|] eqn:Hi; [|exact H].
    destruct t; cbn [resume fst]; exact H.
Qed.

Lemma selected_run (jobs : list action) (s : state) :
  (forall m, In (Receive (SetModel m)) jobs -> PM m) ->
  (forall l, In (Receive (SetLanguage l)) jobs -> PL l) ->
  selected PM PL s -> selected PM PL (fst (run jobs s)).
Proof.
  revert s. induction jobs as [|a jobs IH]; intros s HM HL H; [exact H|].
  rewrite dynamic_fst_run_cons. apply IH.
  - intros m Hm. apply HM. now right.
  - intros l Hl. apply HL. now right.
  - apply selected_step; [| |exact H].
    + intros m ->. apply HM. now left.
    + intros l ->. apply HL. now left.
Qed.

End Selection.

(** X16. In the worker with model and language selection, whatever it
    goes through, every load, warm-up and inference is for the model type
    ["base"] or one a [setModel] command named, and every inference runs
    in the language ["en"] or one a [setLanguage] command named: the
    [language] a request carries is never used. *)
Theorem selection_comes_from_settings (jobs : list DynamicWorker.action) :
  let s := fst (DynamicWorker.run jobs DynamicWorker.initial) in
  Forall (fun c =>
            DynamicWorker.call_model c = js "base" \/
            In (DynamicWorker.Receive (DynamicWorker.SetModel (DynamicWorker.call_model c)))
               jobs)
         (DynamicWorker.calls s) /\
  Forall (fun l =>
            l = js "en" \/
            In (DynamicWorker.Receive (DynamicWorker.SetLanguage l)) jobs)
         (flat_map DynamicWorker.call_languages (DynamicWorker.calls s)) /\
  fst (DynamicWorker.run
         [ DynamicWorker.Receive (DynamicWorker.Generate french_request);
           DynamicWorker.Resolved 0 (js "") ] DynamicWorker.initial)
    = {| DynamicWorker.transcribers := [js "base"];
         DynamicWorker.currentModel := js "base";
         DynamicWorker.currentLanguage := js "en";
         DynamicWorker.processing := true;
         DynamicWorker.tasks := [DynamicWorker.gen_running french_request];
         DynamicWorker.calls :=
           [ DynamicWorker.pipeline_call (js "base") (ModelTable.Id ModelTable.base_id);
             DynamicWorker.transcribe (js "base") (audio french_request) (js "en") false ]
      |}.
Proof.
  intros s.
  pose proof (selected_run
                (fun m => m = js "base" \/
                          In (DynamicWorker.Receive (DynamicWorker.SetModel m)) jobs)
                (fun l => l = js "en" \/
                          In (DynamicWorker.Receive (DynamicWorker.SetLanguage l)) jobs)
                jobs DynamicWorker.initial) as H.
  destruct H as (_ & _ & _ & Hm & Hl).
  - intros m Hm. now right.
  - intros l Hl. now right.
  - repeat split; try (now left); constructor.
  - fold s in Hm, Hl. split; [|split; [exact Hl | reflexivity]].
    rewrite Forall_map in Hm. exact Hm.
Qed.
